(** * Fast2FA: the code-generation engine and the verifier store of 2FA.py

    A shallow embedding of the parts of [src/All/Python/2FA.py] that carry
    correctness obligations: [TOTPGenerator.base32_decode],
    [TOTPGenerator.generate_totp], the countdown expression of the progress
    bar, and the list of verifiers owned by [TwoFactorAuthApp] together with
    its JSON data file.

    Conventions.
    - Python [str] values are [string] at the interface of a function and
      [list ascii] inside it; characters are 8-bit, and [str.upper] maps
      [a..z] to [A..Z] and leaves every other character alone, which is what
      Python does on ASCII text.  Module [Unicode] has [base32_decode] on
      any [str], as a list of code points, with [str.upper] given from
      outside.
    - Python [bytes] are [list Z] with every element in [0, 256).
    - Python [int] is [Z]; lengths and positions that can never be negative
      are [nat].
    - A Python exception is a value of [exn]; a function that can raise
      returns [result A]. *)

From Stdlib Require Import String Ascii ZArith List Bool Lia Arith.
Import ListNotations.
Local Open Scope Z_scope.

(** ** Exceptions and the error monad *)

Inductive exn : Type :=
| ValueError (msg : string)
| AttributeError
| TypeError
| KeyError
| IndexError
| StructError
| ZeroDivisionError
| OSError
| JSONDecodeError.

Definition result (A : Type) : Type := (exn + A)%type.

Definition ret {A} (a : A) : result A := inr a.
Definition raise {A} (e : exn) : result A := inl e.
Definition bind {A B} (m : result A) (k : A -> result B) : result B :=
  match m with
  | inl e => inl e
  | inr a => k a
  end.

Notation "x <- m ;; k" := (bind m (fun x => k))
  (at level 61, m at next level, right associativity).

(** [for x in xs: s = body s x], stopping at the first exception. *)
Fixpoint for_in {A S : Type} (xs : list A) (body : S -> A -> result S) (s : S)
  : result S :=
  match xs with
  | [] => ret s
  | x :: xs' => s' <- body s x ;; for_in xs' body s'
  end.

(** ** Python built-ins used by the engine *)

Module Py.

Definition chr0 : ascii := "0"%char.
Definition chr1 : ascii := "1"%char.

(** [c.upper()] for one character of ASCII text; other characters are left
    alone here, where Python has its own table ([Unicode.base32_decode]
    takes that table as an argument). *)
Definition upper_char (c : ascii) : ascii :=
  let n := nat_of_ascii c in
  if ((97 <=? n) && (n <=? 122))%nat then ascii_of_nat (n - 32) else c.

(** [s.upper()] *)
Definition upper (s : list ascii) : list ascii := map upper_char s.

(** [s.replace(ch, '')] for a one-character [ch]. *)
Definition remove_char (ch : ascii) (s : list ascii) : list ascii :=
  filter (fun c => negb (Ascii.eqb c ch)) s.

(** [c in s] for a one-character [c]. *)
Definition contains (s : list ascii) (c : ascii) : bool :=
  existsb (Ascii.eqb c) s.

(** [s.index(c)]: the first position of [c], or [ValueError]. *)
Fixpoint index (s : list ascii) (c : ascii) : result nat :=
  match s with
  | [] => raise (ValueError "substring not found")
  | d :: s' => if Ascii.eqb c d then ret O else i <- index s' c ;; ret (S i)
  end.

(** Binary digits of a positive number, most significant first. *)
Fixpoint bin_pos (p : positive) : list ascii :=
  match p with
  | xH => [chr1]
  | xO q => bin_pos q ++ [chr0]
  | xI q => bin_pos q ++ [chr1]
  end.

(** [format(n, 'b')] *)
Definition format_b (n : nat) : list ascii :=
  match N.of_nat n with
  | N0 => [chr0]
  | Npos p => bin_pos p
  end.

(** [format(n, '05b')]: at least five binary digits, zero-filled. *)
Definition format_05b (n : nat) : list ascii :=
  let s := format_b n in
  repeat chr0 (5 - length s) ++ s.

(** [int(s, 2)] on a bare digit string (no sign, prefix or blanks). *)
Definition int_base2 (s : list ascii) : result Z :=
  match s with
  | [] => raise (ValueError "invalid literal for int() with base 2")
  | _ =>
    for_in s
      (fun acc c =>
         if Ascii.eqb c chr0 then ret (2 * acc)
         else if Ascii.eqb c chr1 then ret (2 * acc + 1)
         else raise (ValueError "invalid literal for int() with base 2"))
      0
  end.

(** [s[i:j]] for [0 <= i <= j]. *)
Definition slice {A} (s : list A) (i j : nat) : list A :=
  firstn (j - i) (skipn i s).

(** [range(start, stop, step)] for a positive [step]. *)
Fixpoint range_from (count start step : nat) : list nat :=
  match count with
  | O => []
  | S count' => start :: range_from count' (start + step) step
  end.

Definition range (start stop step : nat) : list nat :=
  range_from ((stop - start + (step - 1)) / step) start step.

(** [l[i]] with Python's negative positions; [IndexError] out of range. *)
Definition getitem (l : list Z) (i : Z) : result Z :=
  let n := Z.of_nat (length l) in
  let j := if i <? 0 then i + n else i in
  if (0 <=? j) && (j <? n)
  then match nth_error l (Z.to_nat j) with
       | Some x => ret x
       | None => raise IndexError
       end
  else raise IndexError.

(** [a // b] *)
Definition floordiv (a b : Z) : result Z :=
  if b =? 0 then raise ZeroDivisionError else ret (a / b).

(** [struct.pack('>Q', n)]: eight bytes, big-endian; [struct.error] when [n]
    is not an unsigned 64-bit number. *)
Definition struct_pack_Q (n : Z) : result (list Z) :=
  if (0 <=? n) && (n <? 2 ^ 64)
  then ret (map (fun k => Z.land (Z.shiftr n (8 * k)) 255) [7; 6; 5; 4; 3; 2; 1; 0])
  else raise StructError.

(** Decimal digits of a number, by repeated division; [fuel] bounds the
    number of digits produced. *)
Fixpoint dec_digits (fuel : nat) (n : Z) (acc : list ascii) : list ascii :=
  match fuel with
  | O => acc
  | S fuel' =>
    let acc' := ascii_of_nat (48 + Z.to_nat (n mod 10)) :: acc in
    if n / 10 =? 0 then acc' else dec_digits fuel' (n / 10) acc'
  end.

(** [str(n)] for an [int]. *)
Definition str (n : Z) : list ascii :=
  if n <? 0
  then "-"%char :: dec_digits (S (Z.to_nat (Z.log2 (- n)))) (- n) []
  else dec_digits (S (Z.to_nat (Z.log2 n))) n [].

(** [s.zfill(width)]: zeros go after a leading sign. *)
Definition zfill (s : list ascii) (width : nat) : list ascii :=
  let fill := repeat chr0 (width - length s) in
  match s with
  | c :: s' =>
    if Ascii.eqb c "+"%char || Ascii.eqb c "-"%char
    then c :: fill ++ s'
    else fill ++ s
  | [] => fill
  end.

(** Characters removed by [s.strip()]: the ASCII white space.  Python also
    removes the other Unicode blanks; what is said of [add_verifier] is said
    of the entries as [strip] leaves them. *)
Definition is_space (c : ascii) : bool :=
  let n := nat_of_ascii c in
  (((9 <=? n) && (n <=? 13)) || ((28 <=? n) && (n <=? 32)))%nat.

Fixpoint lstrip (s : list ascii) : list ascii :=
  match s with
  | c :: s' => if is_space c then lstrip s' else s
  | [] => []
  end.

(** [s.strip()] *)
Definition strip (s : string) : string :=
  string_of_list_ascii (rev (lstrip (rev (lstrip (list_ascii_of_string s))))).

(** [l.pop(i)]: the element taken out and the list that remains. *)
Definition pop {A} (l : list A) (i : Z) : result (A * list A) :=
  let n := Z.of_nat (length l) in
  let j := if i <? 0 then i + n else i in
  if (0 <=? j) && (j <? n)
  then match nth_error l (Z.to_nat j) with
       | Some x => ret (x, firstn (Z.to_nat j) l ++ skipn (S (Z.to_nat j)) l)
       | None => raise IndexError
       end
  else raise IndexError.

End Py.

(** ** SHA-1 and HMAC, standing for [hashlib.sha1] and [hmac.new]

    The digest follows FIPS 180-4 section 6.1 on 32-bit words kept in [Z];
    the keyed hash follows the [hmac] module (block size 64, keys longer than
    a block are hashed first). *)

Module SHA1.

Definition w32 (x : Z) : Z := x mod 2 ^ 32.
Definition add32 (x y : Z) : Z := w32 (x + y).
Definition rotl (n x : Z) : Z :=
  w32 (Z.lor (Z.shiftl x n) (Z.shiftr x (32 - n))).
Definition not32 (x : Z) : Z := Z.lxor x 0xFFFFFFFF.

(** Big-endian bytes of a 32-bit word, and back. *)
Definition be32_bytes (x : Z) : list Z :=
  [Z.land (Z.shiftr x 24) 255; Z.land (Z.shiftr x 16) 255;
   Z.land (Z.shiftr x 8) 255; Z.land x 255].

Definition be_value (bs : list Z) : Z :=
  fold_left (fun acc b => acc * 256 + b) bs 0.

(** Message padding: a one bit, zeros, and the 64-bit length in bits. *)
Definition pad (msg : list Z) : list Z :=
  let len := Z.of_nat (length msg) in
  msg ++ [0x80] ++ repeat 0 (Z.to_nat ((55 - len) mod 64))
      ++ map (fun k => Z.land (Z.shiftr (8 * len) (8 * k)) 255)
             [7; 6; 5; 4; 3; 2; 1; 0].

(** Cut a list into runs of [n] elements ([count] of them). *)
Fixpoint chunks {A} (count n : nat) (l : list A) : list (list A) :=
  match count with
  | O => []
  | S count' => firstn n l :: chunks count' n (skipn n l)
  end.

(** The 80-word message schedule of one block. *)
Fixpoint extend (count : nat) (w : list Z) : list Z :=
  match count with
  | O => w
  | S count' =>
    let i := length w in
    let x := Z.lxor (Z.lxor (Z.lxor (nth (i - 3) w 0) (nth (i - 8) w 0))
                            (nth (i - 14) w 0)) (nth (i - 16) w 0) in
    extend count' (w ++ [rotl 1 x])
  end.

Definition schedule (block : list Z) : list Z :=
  extend 64 (map be_value (chunks 16 4 block)).

Definition f (t : nat) (b c d : Z) : Z :=
  if (t <? 20)%nat then Z.lor (Z.land b c) (Z.land (not32 b) d)
  else if (t <? 40)%nat then Z.lxor (Z.lxor b c) d
  else if (t <? 60)%nat
       then Z.lor (Z.lor (Z.land b c) (Z.land b d)) (Z.land c d)
  else Z.lxor (Z.lxor b c) d.

Definition K (t : nat) : Z :=
  if (t <? 20)%nat then 0x5A827999
  else if (t <? 40)%nat then 0x6ED9EBA1
  else if (t <? 60)%nat then 0x8F1BBCDC
  else 0xCA62C1D6.

Record state : Type :=
  mkState { ha : Z; hb : Z; hc : Z; hd : Z; he : Z }.

Definition init : state :=
  mkState 0x67452301 0xEFCDAB89 0x98BADCFE 0x10325476 0xC3D2E1F0.

Definition round (w : list Z) (s : state) (t : nat) : state :=
  let temp :=
    add32 (add32 (add32 (add32 (rotl 5 (ha s)) (f t (hb s) (hc s) (hd s)))
                        (he s)) (K t)) (nth t w 0) in
  mkState temp (ha s) (rotl 30 (hb s)) (hc s) (hd s).

Definition compress (h : state) (block : list Z) : state :=
  let s := fold_left (round (schedule block)) (seq 0 80) h in
  mkState (add32 (ha h) (ha s)) (add32 (hb h) (hb s)) (add32 (hc h) (hc s))
          (add32 (hd h) (hd s)) (add32 (he h) (he s)).

(** [hashlib.sha1(msg).digest()]: twenty bytes. *)
Definition digest (msg : list Z) : list Z :=
  let p := pad msg in
  let h := fold_left compress (chunks (length p / 64) 64 p) init in
  be32_bytes (ha h) ++ be32_bytes (hb h) ++ be32_bytes (hc h)
    ++ be32_bytes (hd h) ++ be32_bytes (he h).

(** [hmac.new(key, msg, hashlib.sha1).digest()] *)
Definition hmac (key msg : list Z) : list Z :=
  let key := if (64 <? length key)%nat then digest key else key in
  let key := key ++ repeat 0 (64 - length key) in
  let inner := digest (map (Z.lxor 0x36) key ++ msg) in
  digest (map (Z.lxor 0x5C) key ++ inner).

End SHA1.

(** ** [class TOTPGenerator] *)

Module TOTPGenerator.

Definition base32_chars : list ascii :=
  list_ascii_of_string "ABCDEFGHIJKLMNOPQRSTUVWXYZ234567".

Definition invalid_character (c : ascii) : exn :=
  ValueError ("Invalid Base32 character: " ++ String c EmptyString)%string.

(** [base32_decode(secret)].  The [except] clause of the source prints the
    exception and raises it again, so it does not show in the result. *)
Definition base32_decode (secret : string) : result (list Z) :=
  let secret :=
    Py.remove_char "="%char
      (Py.remove_char " "%char (Py.upper (list_ascii_of_string secret))) in
  _ <- for_in secret
         (fun _ char =>
            if negb (Py.contains base32_chars char)
            then raise (invalid_character char)
            else ret tt)
         tt ;;
  let padding := (8 - length secret mod 8)%nat in
  let secret :=
    if negb (padding =? 8)%nat
    then secret ++ repeat "A"%char padding
    else secret in
  bits <- for_in secret
            (fun bits c =>
               i <- Py.index base32_chars c ;;
               ret (bits ++ Py.format_05b i))
            [] ;;
  for_in (Py.range 0 (length bits) 8)
    (fun result i =>
       let byte := Py.slice bits i (i + 8) in
       if (length byte =? 8)%nat
       then b <- Py.int_base2 byte ;; ret (result ++ [b])
       else ret result)
    [].

(** The body of the [try] block of [generate_totp]; [now] is the value of
    [int(time.time())].  [digits] is a count, hence a [nat]. *)
Definition generate_totp_try (secret : string) (digits : nat)
  (time_step now : Z) : result string :=
  key <- base32_decode secret ;;
  time_counter <- Py.floordiv now time_step ;;
  time_bytes <- Py.struct_pack_Q time_counter ;;
  let hmac_hash := SHA1.hmac key time_bytes in
  last <- Py.getitem hmac_hash (-1) ;;
  let offset := Z.land last 0x0F in
  b0 <- Py.getitem hmac_hash offset ;;
  b1 <- Py.getitem hmac_hash (offset + 1) ;;
  b2 <- Py.getitem hmac_hash (offset + 2) ;;
  b3 <- Py.getitem hmac_hash (offset + 3) ;;
  let binary :=
    Z.lor (Z.lor (Z.lor (Z.shiftl (Z.land b0 0x7F) 24)
                        (Z.shiftl (Z.land b1 0xFF) 16))
                 (Z.shiftl (Z.land b2 0xFF) 8))
          (Z.land b3 0xFF) in
  let code := binary mod 10 ^ Z.of_nat digits in
  ret (string_of_list_ascii (Py.zfill (Py.str code) digits)).

(** [generate_totp(secret, digits, time_step)]: every exception of the body
    is caught, printed, and turned into the text ERROR. *)
Definition generate_totp (secret : string) (digits : nat)
  (time_step now : Z) : string :=
  match generate_totp_try secret digits time_step now with
  | inr code => code
  | inl _ => "ERROR"
  end.

End TOTPGenerator.

(** ** The countdown of [CircularProgressBar.draw] and [VerifierCard.update_code] *)

Module VerifierCard.

(** [seconds_left = 30 - (int(time.time()) % 30)]; [now] is the value of
    [int(time.time())]. *)
Definition seconds_left (now : Z) : Z := 30 - now mod 30.

End VerifierCard.

(** ** JSON values and the data file *)

#[local] Set Warnings "-register-all".

(** What [json.load] returns.  An object is the list of its members in
    order; its keys are distinct, as those of a Python [dict] are. *)
Inductive json : Type :=
| JNull
| JBool (b : bool)
| JNum (n : Z)
| JStr (s : string)
| JArr (items : list json)
| JObj (members : list (string * json)).

(** The data file as [os.path.exists], [open] and [json.load] see it. *)
Inductive file : Type :=
| Missing                (* no file at the path *)
| Document (v : json)    (* a text that json.load reads back as v *)
| Unparseable.           (* a text json.load rejects: empty, cut short, not JSON *)

(** How the next attempt to write the data file goes.  [WriteFails] stands
    for every way [json.dump] can raise once [open] has emptied the file: a
    full disk, or a string the UTF-8 encoder refuses.  What depends on a
    save going through is stated by what the save returns or shows. *)
Inductive fault : Type :=
| NoFault
| OpenFails      (* open(path, 'w') raises: the file is left as it was *)
| WriteFails.    (* json.dump raises after open has emptied the file *)

(** The two file operations of a [with open(path, 'w') as f: json.dump(v, f)]
    block, in the order they happen. *)
Inductive io_step : Type :=
| Truncate
| WriteAll (v : json).

Definition apply_step (f : file) (s : io_step) : file :=
  match s with
  | Truncate => Unparseable
  | WriteAll v => Document v
  end.

(** [key in d] and [d[key]] for a member list. *)
Fixpoint lookup (key : string) (members : list (string * json)) : option json :=
  match members with
  | [] => None
  | (k, v) :: rest => if String.eqb k key then Some v else lookup key rest
  end.

(** [v[key]] for a string [key]. *)
Definition subscript (v : json) (key : string) : result json :=
  match v with
  | JObj members =>
    match lookup key members with
    | Some x => ret x
    | None => raise KeyError
    end
  | _ => raise TypeError
  end.

(** The dict [{"name": name, "key": key}]. *)
Definition entry (name key : string) : json :=
  JObj [("name", JStr name); ("key", JStr key)]%string.

(** [json.load] on an opened file. *)
Definition read_json (f : file) : result json :=
  match f with
  | Missing => raise OSError
  | Document v => ret v
  | Unparseable => raise JSONDecodeError
  end.

(** ** [class TwoFactorAuthApp]: the verifiers and their persistence *)

Module TwoFactorAuthApp.

(** The texts of the message boxes, named by what they say. *)
Inductive message : Type :=
| EnterName
| EnterKey
| InvalidKey (e : exn)
| LoadFailed (e : exn)
| SaveFailed (e : exn)
| InvalidData
| BadRecord
| Imported
| ImportFailed (e : exn)
| NothingToClear
| Cleared.

(** What the user interface is asked to do. *)
Inductive event : Type :=
| ShowWarning (m : message)
| ShowError (m : message)
| ShowInfo (m : message)
| Render (cards : list (json * json))
| UpdateStats (count : nat)
| ResetEntries.

(** The application state: [self.verifiers] (a Python list), the data file,
    the state of the disk, and the requests made to the user interface so
    far. *)
Record app : Type := mkApp {
  verifiers : list json;
  data_file : file;
  disk : fault;
  ui : list event
}.

(** State passing with exceptions. *)
Definition App (A : Type) : Type := app -> result A * app.

Definition pure {A} (a : A) : App A := fun w => (inr a, w).
Definition throw {A} (e : exn) : App A := fun w => (inl e, w).
Definition andthen {A B} (m : App A) (k : A -> App B) : App B :=
  fun w =>
    match m w with
    | (inl e, w') => (inl e, w')
    | (inr a, w') => k a w'
    end.
Definition try_except {A} (m : App A) (handler : exn -> App A) : App A :=
  fun w =>
    match m w with
    | (inl e, w') => handler e w'
    | (inr a, w') => (inr a, w')
    end.
Definition lift {A} (r : result A) : App A := fun w => (r, w).

Notation "x <~ m ;; k" := (andthen m (fun x => k))
  (at level 61, m at next level, right associativity).

Definition get_verifiers : App (list json) := fun w => (inr (verifiers w), w).
Definition set_verifiers (vs : list json) : App unit :=
  fun w => (inr tt, mkApp vs (data_file w) (disk w) (ui w)).
Definition get_file : App file := fun w => (inr (data_file w), w).
Definition set_file (f : file) : App unit :=
  fun w => (inr tt, mkApp (verifiers w) f (disk w) (ui w)).
Definition emit (e : event) : App unit :=
  fun w => (inr tt, mkApp (verifiers w) (data_file w) (disk w) (ui w ++ [e])).

(** [open(self.data_file, 'w')] *)
Definition open_w : App unit :=
  fun w =>
    match disk w with
    | OpenFails => (inl OSError, w)
    | _ => set_file (apply_step (data_file w) Truncate) w
    end.

(** [json.dump(v, f, indent=2, ensure_ascii=False)] on the file just opened. *)
Definition json_dump (v : json) : App unit :=
  fun w =>
    match disk w with
    | WriteFails => (inl OSError, w)
    | _ => set_file (apply_step (data_file w) (WriteAll v)) w
    end.

(** [name_placeholder] and [key_placeholder] are the grey hints shown in
    the two entry fields, as UTF-8. *)
Definition utf8 (codes : list Z) : string :=
  string_of_list_ascii (map (fun n => ascii_of_nat (Z.to_nat n)) codes).

Definition name_placeholder : string :=
  (utf8 [228; 190; 139; 229; 166; 130] ++ ": GitHub")%string.
Definition key_placeholder : string :=
  (utf8 [232; 190; 147; 229; 133; 165] ++ "2FA"
     ++ utf8 [229; 175; 134; 233; 146; 165])%string.

(** [load_verifiers] *)
Definition load_verifiers : App json :=
  try_except
    (f <~ get_file ;;
     match f with
     | Missing => pure (JArr [])
     | _ => lift (read_json f)
     end)
    (fun e => _ <~ emit (ShowWarning (LoadFailed e)) ;; pure (JArr [])).

(** [save_verifiers] *)
Definition save_verifiers : App bool :=
  try_except
    (_ <~ open_w ;;
     vs <~ get_verifiers ;;
     _ <~ json_dump (JArr vs) ;;
     pure true)
    (fun e => _ <~ emit (ShowError (SaveFailed e)) ;; pure false).

(** The loop of [render_verifiers]: a card is built from
    [verifier["name"]] and [verifier["key"]] and packed at once, so when a
    subscript raises the cards built before it are on the screen.  The
    result is those cards and the exception, if any. *)
Fixpoint build_cards (vs : list json) (cards : list (json * json))
  : list (json * json) * option exn :=
  match vs with
  | [] => (cards, None)
  | verifier :: rest =>
    match (name <- subscript verifier "name" ;;
           key <- subscript verifier "key" ;;
           ret (name, key)) with
    | inl e => (cards, Some e)
    | inr card => build_cards rest (cards ++ [card])
    end
  end.

(** [render_verifiers]: the old cards are destroyed and one card per
    verifier is drawn, in order; [Render cards] is the column of cards the
    window is left with, whether the loop ran to its end or raised. *)
Definition render_verifiers : App unit :=
  vs <~ get_verifiers ;;
  let (cards, raised) := build_cards vs [] in
  _ <~ emit (Render cards) ;;
  match raised with
  | Some e => throw e
  | None => pure tt
  end.

(** [update_stats] *)
Definition update_stats : App unit :=
  vs <~ get_verifiers ;; emit (UpdateStats (length vs)).

(** [add_verifier]; the arguments are the texts of the two entry fields. *)
Definition add_verifier (name_entry key_entry : string) : App unit :=
  let name := Py.strip name_entry in
  let key := Py.strip key_entry in
  if String.eqb name "" || String.eqb name name_placeholder
  then emit (ShowWarning EnterName)
  else if String.eqb key "" || String.eqb key key_placeholder
  then emit (ShowWarning EnterKey)
  else
    match TOTPGenerator.base32_decode key with
    | inl e => emit (ShowError (InvalidKey e))
    | inr _ =>
      vs <~ get_verifiers ;;
      _ <~ set_verifiers (vs ++ [entry name key]) ;;
      saved <~ save_verifiers ;;
      if saved
      then _ <~ render_verifiers ;; _ <~ update_stats ;; emit ResetEntries
      else pure tt
    end.

(** [delete_verifier(index)] *)
Definition delete_verifier (index : Z) : App unit :=
  vs <~ get_verifiers ;;
  if (0 <=? index) && (index <? Z.of_nat (length vs))
  then
    popped <~ lift (Py.pop vs index) ;;
    _ <~ set_verifiers (snd popped) ;;
    saved <~ save_verifiers ;;
    if saved then _ <~ render_verifiers ;; update_stats else pure tt
  else pure tt.

(** [isinstance(item, dict) and 'name' in item and 'key' in item] *)
Definition is_entry (item : json) : bool :=
  match item with
  | JObj members =>
    match lookup "name" members, lookup "key" members with
    | Some _, Some _ => true
    | _, _ => false
    end
  | _ => false
  end.

(** [import_data]; [picked] is the file chosen in the dialog ([None] when
    the dialog is cancelled) and [confirm] the answer to the question
    whether to overwrite, should it be asked. *)
Definition import_data (picked : option file) (confirm : bool) : App unit :=
  match picked with
  | None => pure tt
  | Some f =>
    try_except
      (imported_data <~ lift (read_json f) ;;
       match imported_data with
       | JArr items =>
         match find (fun item => negb (is_entry item)) items with
         | Some _ => emit (ShowError BadRecord)
         | None =>
           if confirm
           then
             _ <~ set_verifiers items ;;
             saved <~ save_verifiers ;;
             if saved
             then _ <~ render_verifiers ;; _ <~ update_stats ;;
                  emit (ShowInfo Imported)
             else pure tt
           else pure tt
         end
       | _ => emit (ShowError InvalidData)
       end)
      (fun e => emit (ShowError (ImportFailed e)))
  end.

(** [clear_all]; [confirm] is the answer to the confirmation question. *)
Definition clear_all (confirm : bool) : App unit :=
  vs <~ get_verifiers ;;
  match vs with
  | [] => emit (ShowInfo NothingToClear)
  | _ =>
    if confirm
    then
      _ <~ set_verifiers [] ;;
      saved <~ save_verifiers ;;
      if saved
      then _ <~ render_verifiers ;; _ <~ update_stats ;; emit (ShowInfo Cleared)
      else pure tt
    else pure tt
  end.

(** The file operations of [save_verifiers] and the file left behind when
    the process stops after the first [k] of them. *)
Definition save_steps (vs : list json) : list io_step :=
  [Truncate; WriteAll (JArr vs)].

Definition interrupted_save (k : nat) (w : app) : app :=
  mkApp (verifiers w)
        (fold_left apply_step (firstn k (save_steps (verifiers w))) (data_file w))
        (disk w) (ui w).

(** A verifier whose key is a text that [base32_decode] accepts. *)
Definition decodable (verifier : json) : bool :=
  match subscript verifier "key" with
  | inr (JStr key) =>
    match TOTPGenerator.base32_decode key with
    | inr _ => true
    | inl _ => false
    end
  | _ => false
  end.

(** A handler signals a failure by raising or by an error or warning box. *)
Definition is_alert (e : event) : bool :=
  match e with
  | ShowWarning _ | ShowError _ => true
  | _ => false
  end.

Definition signals_failure {A} (before : app) (out : result A * app) : bool :=
  match fst out with
  | inl _ => true
  | inr _ => existsb is_alert (skipn (length (ui before)) (ui (snd out)))
  end.

End TwoFactorAuthApp.

(** ** [export_data] of [class TwoFactorAuthApp] *)

Module Backup.

Import TwoFactorAuthApp.

(** The message box [export_data] ends with. *)
Inductive export_box : Type :=
| NothingToExport
| Exported
| ExportFailed (e : exn).

(** [export_data]; [picked] is the file chosen in the save dialog, with the
    way the disk answers the write to it ([None] when the dialog is
    cancelled).  The method changes nothing in the application; the result
    is the box it shows, if any, and the chosen file as it is afterwards. *)
Definition export_data (picked : option (file * fault)) (w : app)
  : option export_box * option file :=
  match verifiers w with
  | [] => (Some NothingToExport, option_map fst picked)
  | vs =>
    match picked with
    | None => (None, None)
    | Some (target, OpenFails) => (Some (ExportFailed OSError), Some target)
    | Some (target, WriteFails) =>
      (Some (ExportFailed OSError), Some (apply_step target Truncate))
    | Some (target, NoFault) =>
      (Some Exported,
       Some (fold_left apply_step [Truncate; WriteAll (JArr vs)] target))
    end
  end.

End Backup.

(** ** The reminder setting: [load_no_remind_setting], [save_no_remind_setting] *)

Module Config.

(** [d.get(key, default)]; only a dict has the method. *)
Definition dict_get (d : json) (key : string) (default : json) : result json :=
  match d with
  | JObj members =>
    match lookup key members with
    | Some v => ret v
    | None => ret default
    end
  | _ => raise AttributeError
  end.

(** [load_no_remind_setting()], on the configuration file as it is.  The
    bare [except] swallows every exception. *)
Definition load_no_remind_setting (config_file : file) : json :=
  let attempt : result (option json) :=
    match config_file with
    | Missing => ret None
    | _ =>
      config <- read_json config_file ;;
      v <- dict_get config "no_remind" (JBool false) ;;
      ret (Some v)
    end in
  match attempt with
  | inr (Some v) => v
  | _ => JBool false
  end.

(** [save_no_remind_setting(value)]: the configuration file afterwards. *)
Definition save_no_remind_setting (value : json) (d : fault)
  (config_file : file) : file :=
  match d with
  | OpenFails => config_file
  | WriteFails => apply_step config_file Truncate
  | NoFault =>
    fold_left apply_step
      [Truncate; WriteAll (JObj [("no_remind"%string, value)])] config_file
  end.

End Config.

(** ** [class VerifierCard] *)

Module Card.

(** What a card holds and shows: the two values it was built from, its
    position in the list when it was built, the text of the code label, the
    number written inside the progress ring, and whether the copy button
    carries its copied mark.  The arc of the ring is a floating-point angle
    and is not part of the model. *)
Record card : Type := mkCard {
  name : json;
  secret : json;
  index : Z;
  code_label : string;
  seconds_shown : Z;
  copied_mark : bool
}.

(** [TOTPGenerator.generate_totp(self.secret)] with the default six digits
    and 30 seconds.  A secret that is not a [str] has no [upper] method; the
    [AttributeError] is caught inside [generate_totp] like any other. *)
Definition generate_totp_default (secret : json) (now : Z) : string :=
  match secret with
  | JStr s => TOTPGenerator.generate_totp s 6 30 now
  | _ => "ERROR"
  end.

(** [update_code]: [t_code] is the clock as [generate_totp] reads it and
    [t_ring] as [CircularProgressBar.draw] reads it a moment later. *)
Definition update_code (t_code t_ring : Z) (c : card) : card :=
  mkCard (name c) (secret c) (index c)
         (generate_totp_default (secret c) t_code)
         (VerifierCard.seconds_left t_ring)
         (copied_mark c).

(** [copy_code]: the card, the clipboard text, and whether the error box is
    shown; [clipboard_works] tells whether [pyperclip.copy] succeeds. *)
Definition copy_code (clipboard_works : bool) (c : card) (clipboard : string)
  : card * string * bool :=
  let code := code_label c in
  if negb (String.eqb code "ERROR") && negb (String.eqb code "------")
  then
    if clipboard_works
    then (mkCard (name c) (secret c) (index c) (code_label c)
                 (seconds_shown c) true,
          code, false)
    else (c, clipboard, true)
  else (c, clipboard, false).

(** [delete]: [confirm] is the answer to the question; the callback is
    [TwoFactorAuthApp.delete_verifier]. *)
Definition delete (confirm : bool) (c : card) : TwoFactorAuthApp.App unit :=
  if confirm
  then TwoFactorAuthApp.delete_verifier (index c)
  else TwoFactorAuthApp.pure tt.

End Card.

(** ** The hints of the two entry fields: [on_name_focus_in] and the like *)

Module EntryField.

(** An entry field: its text and its text colour. *)
Record entry_field : Type := mkField {
  text : string;
  fg : string
}.

Definition on_name_focus_in (e : entry_field) : entry_field :=
  if String.eqb (text e) TwoFactorAuthApp.name_placeholder
  then mkField "" "#1a1a1a"
  else e.

Definition on_name_focus_out (e : entry_field) : entry_field :=
  if String.eqb (text e) ""
  then mkField TwoFactorAuthApp.name_placeholder "#999"
  else e.

Definition on_key_focus_in (e : entry_field) : entry_field :=
  if String.eqb (text e) TwoFactorAuthApp.key_placeholder
  then mkField "" "#1a1a1a"
  else e.

Definition on_key_focus_out (e : entry_field) : entry_field :=
  if String.eqb (text e) ""
  then mkField TwoFactorAuthApp.key_placeholder "#999"
  else e.

End EntryField.

(** ** The behaviour the specification words describe

    These definitions follow the text of the specification, not the code;
    the theorems below compare them with the code. *)

Module Spec.

(** RefreshClock: [timeStepSeconds - (floor(t) mod timeStepSeconds)]. *)
Definition secondsRemaining (timeStepSeconds t : Z) : Z :=
  timeStepSeconds - t mod timeStepSeconds.

(** SymbolCodec. *)
Inductive codec_error : Type :=
| InvalidSymbol (c : ascii).

(** The 5-bit value of a symbol of the alphabet A..Z, 2..7. *)
Definition symbol_value (c : ascii) : option Z :=
  let n := Z.of_nat (nat_of_ascii c) in
  if (65 <=? n) && (n <=? 90) then Some (n - 65)
  else if (50 <=? n) && (n <=? 55) then Some (n - 24)
  else None.

(** Uppercase, then drop spaces and padding characters. *)
Definition stripped (text : string) : list ascii :=
  filter (fun c => negb (Ascii.eqb c " " || Ascii.eqb c "="))
         (map Py.upper_char (list_ascii_of_string text)).

Fixpoint symbols (s : list ascii) : codec_error + list Z :=
  match s with
  | [] => inr []
  | c :: s' =>
    match symbol_value c with
    | None => inl (InvalidSymbol c)
    | Some v =>
      match symbols s' with
      | inl e => inl e
      | inr vs => inr (v :: vs)
      end
    end
  end.

(** Right-pad with the zero-valued symbol to a multiple of eight symbols. *)
Definition padded (vs : list Z) : list Z :=
  vs ++ repeat 0 ((8 - length vs mod 8) mod 8)%nat.

(** The five bits of a symbol value, most significant first. *)
Definition bits5 (v : Z) : list bool := map (Z.testbit v) [4; 3; 2; 1; 0].

(** Groups of eight bits; a shorter group at the end is dropped. *)
Fixpoint groups8 (bits : list bool) : list (list bool) :=
  match bits with
  | b0 :: b1 :: b2 :: b3 :: b4 :: b5 :: b6 :: b7 :: rest =>
    [b0; b1; b2; b3; b4; b5; b6; b7] :: groups8 rest
  | _ => []
  end.

Definition byte_value (group : list bool) : Z :=
  fold_left (fun acc (b : bool) => 2 * acc + Z.b2z b) group 0.

Definition decode (text : string) : codec_error + list Z :=
  match symbols (stripped text) with
  | inl e => inl e
  | inr vs => inr (map byte_value (groups8 (flat_map bits5 (padded vs))))
  end.


(** CodeEngine. *)

(** The counter as an 8-byte big-endian unsigned integer. *)
Definition counter_bytes (counter : Z) : list Z :=
  map (fun i => (counter / 256 ^ i) mod 256) [7; 6; 5; 4; 3; 2; 1; 0].

(** Steps 4 and 5: the 31-bit number cut out of the keyed hash. *)
Definition truncate (mac : list Z) : Z :=
  let offset := Z.to_nat (Z.land (nth 19 mac 0) 0x0F) in
  match firstn 4 (skipn offset mac) with
  | [b0; b1; b2; b3] =>
    Z.land b0 0x7F * 256 ^ 3 + b1 * 256 ^ 2 + b2 * 256 + b3
  | _ => 0
  end.

Definition digit_char (d : Z) : ascii := ascii_of_nat (48 + Z.to_nat d).

(** The decimal digits of [n] on exactly [digits] positions, the first
    being the one of weight [10 ^ (digits - 1)]. *)
Definition padded_decimal (digits : nat) (n : Z) : list ascii :=
  map (fun i => digit_char ((n / 10 ^ Z.of_nat (digits - 1 - i)) mod 10))
      (seq 0 digits).

Definition generate (key : list Z) (digits : nat) (timeStepSeconds t : Z)
  : string :=
  let counter := t / timeStepSeconds in
  let mac := SHA1.hmac key (counter_bytes counter) in
  let binary := truncate mac in
  string_of_list_ascii (padded_decimal digits (binary mod 10 ^ Z.of_nat digits)).

End Spec.

(** ** Vocabulary of the proofs *)

(** The character [format] writes for a bit. *)
Definition bitchar (b : bool) : ascii := if b then Py.chr1 else Py.chr0.

(** The body of the last loop of [base32_decode], for a given bit string. *)
Definition append_byte (bits : list ascii) (bytes : list Z) (i : nat)
  : result (list Z) :=
  let byte := Py.slice bits i (i + 8) in
  if (length byte =? 8)%nat
  then b <- Py.int_base2 byte ;; ret (bytes ++ [b])
  else ret bytes.

(** The bytes of an ASCII text. *)
Definition ascii_bytes (s : string) : list Z :=
  map (fun c => Z.of_nat (nat_of_ascii c)) (list_ascii_of_string s).

(** The ten decimal digits. *)
Definition is_digit (c : ascii) : bool :=
  Py.contains (list_ascii_of_string "0123456789") c.

(** A value a Python [bytes] object can hold. *)
Definition is_byte (b : Z) : Prop := 0 <= b < 256.

(** The characters [base32_decode] lets through: letters of either case,
    the digits 2 to 7, the space and the padding sign. *)
Definition accepted_char (c : ascii) : bool :=
  let n := nat_of_ascii c in
  (((65 <=? n) && (n <=? 90)) || ((97 <=? n) && (n <=? 122))
   || ((50 <=? n) && (n <=? 55)) || (n =? 32) || (n =? 61))%nat.




(** The data file holds exactly the list in memory. *)
Definition mirrored (w : TwoFactorAuthApp.app) : Prop :=
  TwoFactorAuthApp.data_file w
  = Document (JArr (TwoFactorAuthApp.verifiers w)).

(** The pair a card is built from: [(verifier["name"], verifier["key"])]. *)
Definition card_fields (verifier : json) : result (json * json) :=
  name <- subscript verifier "name" ;;
  key <- subscript verifier "key" ;;
  ret (name, key).

(** What the user can do to the list: the buttons of the window and the
    delete button of a card. *)
Inductive action : Type :=
| Add (name_entry key_entry : string)
| Delete (c : Card.card) (confirm : bool)
| Import (picked : option file) (confirm : bool)
| Clear (confirm : bool).

Definition perform (a : action) : TwoFactorAuthApp.App unit :=
  match a with
  | Add name_entry key_entry => TwoFactorAuthApp.add_verifier name_entry key_entry
  | Delete c confirm => Card.delete confirm c
  | Import picked confirm => TwoFactorAuthApp.import_data picked confirm
  | Clear confirm => TwoFactorAuthApp.clear_all confirm
  end.

(** One action after the other.  Tk reports an exception that leaves a
    callback and carries on with the state as it stands. *)
Fixpoint run (actions : list action) (w : TwoFactorAuthApp.app)
  : TwoFactorAuthApp.app :=
  match actions with
  | [] => w
  | a :: rest => run rest (snd (perform a w))
  end.

Definition is_import (a : action) : bool :=
  match a with
  | Import _ _ => true
  | _ => false
  end.

(** What a save leaves in the data file, by the state of the disk. *)
Definition written (d : fault) (vs : list json) (f : file) : file :=
  match d with
  | NoFault => Document (JArr vs)
  | OpenFails => f
  | WriteFails => Unparseable
  end.

(** [w'] is [w] but for the requests to the user interface. *)
Definition same_store (w w' : TwoFactorAuthApp.app) : Prop :=
  TwoFactorAuthApp.verifiers w' = TwoFactorAuthApp.verifiers w
  /\ TwoFactorAuthApp.data_file w' = TwoFactorAuthApp.data_file w
  /\ TwoFactorAuthApp.disk w' = TwoFactorAuthApp.disk w.

(** A step that touches the user interface only. *)
Definition ui_only {A} (m : TwoFactorAuthApp.App A) : Prop :=
  forall w, same_store w (snd (m w)).

(** The tail shared by the four handlers that change the list: put the new
    list in place, save, and redraw when the save went through. *)
Definition commit (vs : list json) (last : TwoFactorAuthApp.App unit)
  : TwoFactorAuthApp.App unit :=
  TwoFactorAuthApp.andthen (TwoFactorAuthApp.set_verifiers vs)
    (fun _ =>
       TwoFactorAuthApp.andthen TwoFactorAuthApp.save_verifiers
         (fun saved : bool =>
            if saved
            then TwoFactorAuthApp.andthen TwoFactorAuthApp.render_verifiers
                   (fun _ => last)
            else TwoFactorAuthApp.pure tt)).

(** From [w] to [w'] the disk is the same one, and either list and file
    are as they were or the file is what a save of the new list leaves. *)
Definition saved_or_untouched (w w' : TwoFactorAuthApp.app) : Prop :=
  TwoFactorAuthApp.disk w' = TwoFactorAuthApp.disk w
  /\ ((TwoFactorAuthApp.verifiers w' = TwoFactorAuthApp.verifiers w
       /\ TwoFactorAuthApp.data_file w' = TwoFactorAuthApp.data_file w)
      \/ TwoFactorAuthApp.data_file w'
         = written (TwoFactorAuthApp.disk w) (TwoFactorAuthApp.verifiers w')
                   (TwoFactorAuthApp.data_file w)).



(** A character of ASCII text. *)
Definition is_ascii (c : ascii) : bool := (nat_of_ascii c <? 128)%nat.

(** The error box of a save that did not go through. *)
Definition is_save_failed (e : TwoFactorAuthApp.event) : bool :=
  match e with
  | TwoFactorAuthApp.ShowError (TwoFactorAuthApp.SaveFailed _) => true
  | _ => false
  end.

(** What was asked of the user interface between [w] and [w']. *)
Definition shown_since (w w' : TwoFactorAuthApp.app)
  : list TwoFactorAuthApp.event :=
  skipn (length (TwoFactorAuthApp.ui w)) (TwoFactorAuthApp.ui w').

(** From [w] to [w'] the requests to the user interface only grew, and
    either list and file are as they were, or the file holds the list of
    [w'], or a save failed and said so. *)
Definition tracked (w w' : TwoFactorAuthApp.app) : Prop :=
  exists evs : list TwoFactorAuthApp.event,
    TwoFactorAuthApp.ui w' = TwoFactorAuthApp.ui w ++ evs
    /\ ((TwoFactorAuthApp.verifiers w' = TwoFactorAuthApp.verifiers w
         /\ TwoFactorAuthApp.data_file w' = TwoFactorAuthApp.data_file w)
        \/ TwoFactorAuthApp.data_file w'
           = Document (JArr (TwoFactorAuthApp.verifiers w'))
        \/ existsb is_save_failed evs = true).

(** A step that only adds requests to the user interface. *)
Definition ui_grows {A} (m : TwoFactorAuthApp.App A) : Prop :=
  forall w, same_store w (snd (m w))
            /\ exists evs, TwoFactorAuthApp.ui (snd (m w))
                           = TwoFactorAuthApp.ui w ++ evs.

(** ** [base32_decode] on any Python text

    A Python [str] is a sequence of code points, and [str.upper] follows the
    Unicode case mappings, which may turn one character into several and
    are no part of this program: [upper] is a parameter of the model.  The
    bit string the decoder builds from [format] is ASCII and stays a
    [list ascii].  [TOTPGenerator.base32_decode] above is this function on
    ASCII text. *)

Module Unicode.

(** A [str]: its code points. *)
Definition text : Type := list N.

(** A string literal of the source; all of them are ASCII. *)
Definition literal (s : string) : text :=
  map N_of_ascii (list_ascii_of_string s).

(** An exception: a [ValueError] whose message may hold any character, or
    one of the exceptions with an ASCII message. *)
Inductive exc : Type :=
| ValueErrorText (msg : text)
| Plain (e : exn).

Definition outcome (A : Type) : Type := (exc + A)%type.

Definition andthen {A B} (m : outcome A) (k : A -> outcome B) : outcome B :=
  match m with
  | inl e => inl e
  | inr a => k a
  end.

Definition plain {A} (r : result A) : outcome A :=
  match r with
  | inl e => inl (Plain e)
  | inr a => inr a
  end.

(** [for x in xs: s = body s x], stopping at the first exception. *)
Fixpoint for_each {A S : Type} (xs : list A) (body : S -> A -> outcome S)
  (s : S) : outcome S :=
  match xs with
  | [] => inr s
  | x :: xs' => andthen (body s x) (for_each xs' body)
  end.

(** [s.replace(ch, '')] for a one-character [ch]. *)
Definition remove_char (ch : N) (s : text) : text :=
  filter (fun c => negb (N.eqb c ch)) s.

(** [c in s] for a one-character [c]. *)
Definition contains (s : text) (c : N) : bool := existsb (N.eqb c) s.

(** [s.index(c)] *)
Fixpoint index (s : text) (c : N) : outcome nat :=
  match s with
  | [] => inl (Plain (ValueError "substring not found"))
  | d :: s' =>
    if N.eqb c d then inr O else andthen (index s' c) (fun i => inr (S i))
  end.

Definition base32_chars : text := literal "ABCDEFGHIJKLMNOPQRSTUVWXYZ234567".

Definition invalid_character (c : N) : exc :=
  ValueErrorText (literal "Invalid Base32 character: " ++ [c]).

(** [base32_decode(secret)] for any [str], given what [str.upper] does. *)
Definition base32_decode (upper : text -> text) (secret : text)
  : outcome (list Z) :=
  let secret :=
    remove_char (N_of_ascii "=") (remove_char (N_of_ascii " ") (upper secret)) in
  andthen
    (for_each secret
       (fun _ char =>
          if negb (contains base32_chars char)
          then inl (invalid_character char)
          else inr tt)
       tt)
    (fun _ =>
       let padding := (8 - length secret mod 8)%nat in
       let secret :=
         if negb (padding =? 8)%nat
         then secret ++ repeat (N_of_ascii "A") padding
         else secret in
       andthen
         (for_each secret
            (fun bits c =>
               andthen (index base32_chars c)
                       (fun i => inr (bits ++ Py.format_05b i)))
            [])
         (fun bits =>
            for_each (Py.range 0 (length bits) 8)
              (fun bytes i =>
                 let byte := Py.slice bits i (i + 8) in
                 if (length byte =? 8)%nat
                 then andthen (plain (Py.int_base2 byte))
                              (fun b => inr (bytes ++ [b]))
                 else inr bytes)
              [])).

(** [s.upper()]: Python maps the characters one by one, each by its own
    table [to_upper], to one character or to several. *)
Definition upper (to_upper : N -> text) (s : text) : text :=
  flat_map to_upper s.

(** What [str.upper] does to ASCII text, character by character. *)
Definition ascii_upper (s : text) : text :=
  map (fun c => if ((97 <=? c) && (c <=? 122))%N then (c - 32)%N else c) s.

End Unicode.

(** SymbolCodec as the specification words it, on any text. *)

Module UnicodeSpec.

Inductive codec_error : Type :=
| InvalidSymbol (c : N).

(** The 5-bit value of a symbol of the alphabet A..Z, 2..7. *)
Definition symbol_value (c : N) : option Z :=
  let n := Z.of_N c in
  if (65 <=? n) && (n <=? 90) then Some (n - 65)
  else if (50 <=? n) && (n <=? 55) then Some (n - 24)
  else None.

(** Uppercase, then drop spaces and padding characters. *)
Definition stripped (upper : Unicode.text -> Unicode.text)
  (text : Unicode.text) : Unicode.text :=
  filter (fun c => negb (N.eqb c 32 || N.eqb c 61)) (upper text).

Fixpoint symbols (s : Unicode.text) : codec_error + list Z :=
  match s with
  | [] => inr []
  | c :: s' =>
    match symbol_value c with
    | None => inl (InvalidSymbol c)
    | Some v =>
      match symbols s' with
      | inl e => inl e
      | inr vs => inr (v :: vs)
      end
    end
  end.

(** Padding, bits and groups are those of [Spec]. *)
Definition decode (upper : Unicode.text -> Unicode.text)
  (text : Unicode.text) : codec_error + list Z :=
  match symbols (stripped upper text) with
  | inl e => inl e
  | inr vs =>
    inr (map Spec.byte_value
             (Spec.groups8 (flat_map Spec.bits5 (Spec.padded vs))))
  end.

End UnicodeSpec.

(** * Theorems *)

(** ** The error monad and loops *)

Lemma for_in_app {A S} (xs ys : list A) (body : S -> A -> result S) (s : S) :
  for_in (xs ++ ys) body s = (s' <- for_in xs body s ;; for_in ys body s').
Proof.
  revert s; induction xs as [|x xs IH]; intros s; simpl.
  - reflexivity.
  - destruct (body s x) as [e|s']; simpl; [reflexivity | apply IH].
Qed.

(** ** RefreshClock *)

(** C8, as the code has it: the countdown is computed for the fixed step of
    30 seconds; for every whole-second clock reading [now] it equals
    [30 - (now mod 30)], lies in [1, 30], and is 30 exactly when [now] is on
    a window boundary. *)
Theorem seconds_left_window (now : Z) :
  VerifierCard.seconds_left now = Spec.secondsRemaining 30 now
  /\ 1 <= VerifierCard.seconds_left now <= 30
  /\ (VerifierCard.seconds_left now = 30 <-> now mod 30 = 0).
Proof.
  unfold VerifierCard.seconds_left, Spec.secondsRemaining.
  pose proof (Z.mod_pos_bound now 30 ltac:(lia)) as Hm.
  repeat split; lia.
Qed.

(** C8 as stated fails for a step other than 30: the code has no step
    parameter, so at [now = 10] it shows 20 where a 60-second step has 50
    seconds left. *)
Lemma seconds_left_ignores_step :
  ~ (forall timeStepSeconds now : Z, 1 <= timeStepSeconds ->
       VerifierCard.seconds_left now = Spec.secondsRemaining timeStepSeconds now).
Proof.
  intros H. specialize (H 60 10 ltac:(lia)). vm_compute in H. discriminate H.
Qed.

(** ** SymbolCodec: [base32_decode] *)

Section Base32.

Import TOTPGenerator.

(** The alphabet string and the arithmetic on character codes agree, on all
    256 characters. *)
Lemma alphabet_agrees (c : ascii) :
  match Spec.symbol_value c with
  | Some v =>
    ((0 <=? v) && (v <? 32) && Py.contains base32_chars c)%bool = true
    /\ Py.index base32_chars c = inr (Z.to_nat v)
  | None => Py.contains base32_chars c = false
  end.
Proof.
  destruct c as [[] [] [] [] [] [] [] []]; vm_compute; auto.
Qed.

Lemma format_05b_bits5 (n : nat) :
  (n < 32)%nat ->
  Py.format_05b n = map bitchar (Spec.bits5 (Z.of_nat n)).
Proof.
  intros Hn.
  do 32 (destruct n as [|n]; [reflexivity|]).
  lia.
Qed.

Lemma stripped_agrees (text : string) :
  Py.remove_char "="%char
    (Py.remove_char " "%char (Py.upper (list_ascii_of_string text)))
  = Spec.stripped text.
Proof.
  unfold Spec.stripped, Py.remove_char, Py.upper.
  induction (map Py.upper_char (list_ascii_of_string text)) as [|c l IH];
    simpl; [reflexivity|].
  destruct (Ascii.eqb c " "); simpl; [exact IH|].
  destruct (Ascii.eqb c "="); simpl; [exact IH | now rewrite IH].
Qed.

(** The first loop: it raises at the first character outside the alphabet
    and does nothing otherwise. *)
Lemma check_loop (s : list ascii) :
  for_in s
    (fun (_ : unit) char =>
       if negb (Py.contains base32_chars char)
       then raise (invalid_character char)
       else ret tt)
    tt
  = match Spec.symbols s with
    | inl (Spec.InvalidSymbol c) => inl (invalid_character c)
    | inr _ => inr tt
    end.
Proof.
  induction s as [|c s IH]; cbn [for_in Spec.symbols]; [reflexivity|].
  pose proof (alphabet_agrees c) as Hc.
  destruct (Spec.symbol_value c) as [v|].
  - destruct Hc as [Hc _].
    apply andb_prop in Hc; destruct Hc as [_ Hc]. rewrite Hc; cbn [negb bind ret].
    rewrite IH. destruct (Spec.symbols s) as [[c']|vs]; reflexivity.
  - rewrite Hc; reflexivity.
Qed.

Lemma symbols_length (s : list ascii) (vs : list Z) :
  Spec.symbols s = inr vs -> length vs = length s.
Proof.
  revert vs; induction s as [|c s IH]; intros vs H; simpl in H.
  - injection H as <-; reflexivity.
  - destruct (Spec.symbol_value c); [|discriminate].
    destruct (Spec.symbols s) as [|vs']; [discriminate|].
    injection H as <-; simpl; f_equal; apply IH; reflexivity.
Qed.

Lemma symbols_pad (s : list ascii) (vs : list Z) (n : nat) :
  Spec.symbols s = inr vs ->
  Spec.symbols (s ++ repeat "A"%char n) = inr (vs ++ repeat 0 n).
Proof.
  revert vs; induction s as [|c s IH]; intros vs H; simpl in *.
  - injection H as <-. induction n as [|n IHn]; simpl; [reflexivity|].
    change (Spec.symbol_value "A") with (Some 0). now rewrite IHn.
  - destruct (Spec.symbol_value c); [|discriminate].
    destruct (Spec.symbols s) as [|vs']; [discriminate|].
    injection H as <-. now rewrite (IH vs' eq_refl).
Qed.

(** The second loop: the bit string of the symbol values. *)
Lemma bits_loop (s : list ascii) (vs : list Z) (acc : list ascii) :
  Spec.symbols s = inr vs ->
  for_in s
    (fun bits c => i <- Py.index base32_chars c ;; ret (bits ++ Py.format_05b i))
    acc
  = inr (acc ++ map bitchar (flat_map Spec.bits5 vs)).
Proof.
  revert vs acc; induction s as [|c s IH]; intros vs acc H; simpl in H.
  - injection H as <-; simpl. now rewrite app_nil_r.
  - pose proof (alphabet_agrees c) as Hc.
    destruct (Spec.symbol_value c) as [v|]; [|discriminate].
    destruct (Spec.symbols s) as [|vs'] eqn:Hs; [discriminate|].
    injection H as <-. destruct Hc as [Hb Hi].
    apply andb_prop in Hb; destruct Hb as [Hb _].
    apply andb_prop in Hb; destruct Hb as [Hlo Hhi].
    apply Z.leb_le in Hlo; apply Z.ltb_lt in Hhi.
    cbn [for_in]. rewrite Hi. cbn [bind ret].
    rewrite (IH vs' _ eq_refl).
    rewrite format_05b_bits5 by lia.
    rewrite Z2Nat.id by lia.
    cbn [flat_map]. now rewrite map_app, app_assoc.
Qed.

(** [int(byte, 2)] on a string of bit characters. *)
Lemma int_base2_fold (group : list bool) (acc : Z) :
  for_in (map bitchar group)
    (fun acc c =>
       if Ascii.eqb c Py.chr0 then ret (2 * acc)
       else if Ascii.eqb c Py.chr1 then ret (2 * acc + 1)
       else raise (ValueError "invalid literal for int() with base 2"))
    acc
  = inr (fold_left (fun acc (b : bool) => 2 * acc + Z.b2z b) group acc).
Proof.
  revert acc; induction group as [|b g IH]; intros acc; [reflexivity|].
  destruct b; simpl; rewrite IH; do 3 f_equal; lia.
Qed.

Lemma int_base2_group (b : bool) (group : list bool) :
  Py.int_base2 (map bitchar (b :: group)) = inr (Spec.byte_value (b :: group)).
Proof.
  unfold Py.int_base2, Spec.byte_value.
  change (map bitchar (b :: group)) with (bitchar b :: map bitchar group) at 1.
  cbv iota. apply int_base2_fold.
Qed.

Lemma slice_after {A} (pre rest : list A) (n : nat) :
  Py.slice (pre ++ rest) (length pre) (length pre + n) = firstn n rest.
Proof.
  unfold Py.slice.
  replace (length pre + n - length pre)%nat with n by lia.
  rewrite skipn_app, skipn_all, Nat.sub_diag; reflexivity.
Qed.

(** The third loop: one byte per full group of eight bits. *)
Lemma bytes_loop (n : nat) :
  forall (bools : list bool) (pre bits : list ascii) (acc : list Z),
    (length bools <= n)%nat ->
    bits = pre ++ map bitchar bools ->
    for_in (Py.range_from ((length bools + 7) / 8) (length pre) 8)
           (append_byte bits) acc
    = inr (acc ++ map Spec.byte_value (Spec.groups8 bools)).
Proof.
  induction n as [|n IH]; intros bools pre bits acc Hlen Hbits.
  - destruct bools; [|simpl in Hlen; lia]. simpl. now rewrite app_nil_r.
  - destruct bools as [|b0 [|b1 [|b2 [|b3 [|b4 [|b5 [|b6 [|b7 rest]]]]]]]];
      try (subst bits; cbn [length Nat.add Nat.div Nat.divmod fst Py.range_from
                             for_in Spec.groups8 map];
           unfold append_byte; rewrite ?slice_after; cbn;
           now rewrite ?app_nil_r).
    set (group := [b0; b1; b2; b3; b4; b5; b6; b7]).
    change (b0 :: b1 :: b2 :: b3 :: b4 :: b5 :: b6 :: b7 :: rest)
      with (group ++ rest) in *.
    rewrite length_app in *. change (length group) with 8%nat in *.
    replace ((8 + length rest + 7) / 8)%nat with (S ((length rest + 7) / 8)).
    2:{ replace (8 + length rest + 7)%nat with (1 * 8 + (length rest + 7))%nat
          by lia.
        rewrite Nat.div_add_l by lia. reflexivity. }
    cbn [Py.range_from for_in].
    assert (Hstep : append_byte bits acc (length pre)
                    = inr (acc ++ [Spec.byte_value group])).
    { unfold append_byte. subst bits. rewrite slice_after, map_app.
      rewrite firstn_app. change (length (map bitchar group)) with 8%nat.
      rewrite Nat.sub_diag, firstn_O, app_nil_r.
      change (firstn 8 (map bitchar group)) with (map bitchar group).
      change (length (map bitchar group) =? 8)%nat with true. cbv iota.
      unfold group at 1. rewrite int_base2_group. reflexivity. }
    rewrite Hstep. cbn [bind].
    replace (length pre + 8)%nat with (length (pre ++ map bitchar group))
      by (rewrite length_app; reflexivity).
    rewrite (IH rest (pre ++ map bitchar group) bits) by
      (try lia; subst bits; now rewrite map_app, app_assoc).
    change (Spec.groups8 (group ++ rest)) with (group :: Spec.groups8 rest).
    cbn [map]. now rewrite <- app_assoc.
Qed.

Lemma padded_symbols (s : list ascii) (vs : list Z) :
  Spec.symbols s = inr vs ->
  let padding := (8 - length s mod 8)%nat in
  Spec.symbols (if negb (padding =? 8)%nat
                then s ++ repeat "A"%char padding else s)
  = inr (Spec.padded vs).
Proof.
  intros Hs padding. unfold Spec.padded.
  rewrite (symbols_length s vs Hs).
  pose proof (Nat.mod_upper_bound (length s) 8 ltac:(lia)) as Hm.
  fold padding.
  destruct (padding =? 8)%nat eqn:Hp; cbn [negb].
  - apply Nat.eqb_eq in Hp. rewrite Hp. cbn [Nat.modulo Nat.divmod fst snd Nat.sub repeat].
    now rewrite app_nil_r.
  - apply Nat.eqb_neq in Hp.
    rewrite (Nat.mod_small padding 8) by (unfold padding in *; lia).
    now apply symbols_pad.
Qed.

(** [base32_decode] computes what the specification of [decode] says, on
    every text. *)
Lemma base32_decode_refines (text : string) :
  base32_decode text
  = match Spec.decode text with
    | inl (Spec.InvalidSymbol c) => inl (invalid_character c)
    | inr bytes => inr bytes
    end.
Proof.
  unfold base32_decode, Spec.decode.
  rewrite stripped_agrees, check_loop.
  destruct (Spec.symbols (Spec.stripped text)) as [[c]|vs] eqn:Hs;
    [reflexivity|].
  cbn [bind].
  rewrite (bits_loop _ _ [] (padded_symbols _ _ Hs)).
  cbn [bind app].
  set (bools := flat_map Spec.bits5 (Spec.padded vs)).
  unfold Py.range.
  rewrite length_map, Nat.sub_0_r.
  change (8 - 1)%nat with 7%nat.
  exact (bytes_loop (length bools) bools [] (map bitchar bools) []
           (le_n _) eq_refl).
Qed.




End Base32.



(** ** CodeEngine: [generate_totp] *)

Section Bytes.

Lemma land_255 (x : Z) : Z.land x 255 = x mod 256.
Proof. change 255 with (Z.ones 8). now rewrite Z.land_ones by lia. Qed.

Lemma land_255_byte (x : Z) : is_byte (Z.land x 255).
Proof. rewrite land_255. apply Z.mod_pos_bound; lia. Qed.

Lemma land_byte (b : Z) : is_byte b -> Z.land b 255 = b.
Proof. intros Hb. rewrite land_255. apply Z.mod_small; exact Hb. Qed.

Lemma lor_disjoint (hi lo k : Z) :
  0 <= k -> 0 <= lo < 2 ^ k -> Z.lor (hi * 2 ^ k) lo = hi * 2 ^ k + lo.
Proof.
  intros Hk Hlo.
  assert (Hand : Z.land (hi * 2 ^ k) lo = 0).
  { apply Z.bits_inj'; intros n Hn.
    rewrite Z.land_spec, Z.bits_0.
    destruct (Z.lt_ge_cases n k) as [Hlt|Hge].
    - now rewrite Z.mul_pow2_bits_low by lia.
    - replace lo with (lo mod 2 ^ k) by (apply Z.mod_small; lia).
      rewrite Z.mod_pow2_bits_high by lia. apply andb_false_r. }
  now rewrite <- Z.lxor_lor, <- Z.add_nocarry_lxor.
Qed.

(** The shifts and ors of [generate_totp] pack four bytes big-endian. *)
Lemma pack_big_endian (a b1 b2 b3 : Z) :
  0 <= a -> is_byte b1 -> is_byte b2 -> is_byte b3 ->
  Z.lor (Z.lor (Z.lor (Z.shiftl a 24) (Z.shiftl (Z.land b1 0xFF) 16))
               (Z.shiftl (Z.land b2 0xFF) 8))
        (Z.land b3 0xFF)
  = a * 256 ^ 3 + b1 * 256 ^ 2 + b2 * 256 + b3.
Proof.
  unfold is_byte; intros Ha H1 H2 H3.
  rewrite !land_byte by assumption.
  rewrite !Z.shiftl_mul_pow2 by lia.
  rewrite (lor_disjoint a (b1 * 2 ^ 16) 24) by lia.
  replace (a * 2 ^ 24 + b1 * 2 ^ 16) with ((a * 2 ^ 8 + b1) * 2 ^ 16) by lia.
  rewrite (lor_disjoint _ (b2 * 2 ^ 8) 16) by lia.
  replace ((a * 2 ^ 8 + b1) * 2 ^ 16 + b2 * 2 ^ 8)
    with (((a * 2 ^ 8 + b1) * 2 ^ 8 + b2) * 2 ^ 8) by lia.
  rewrite (lor_disjoint _ b3 8) by lia.
  lia.
Qed.

Lemma struct_pack_Q_bytes (n : Z) :
  0 <= n < 2 ^ 64 -> Py.struct_pack_Q n = inr (Spec.counter_bytes n).
Proof.
  intros Hn. unfold Py.struct_pack_Q, Spec.counter_bytes.
  replace ((0 <=? n) && (n <? 2 ^ 64)) with true
    by (symmetry; apply andb_true_intro; split;
        [apply Z.leb_le | apply Z.ltb_lt]; lia).
  unfold ret; f_equal. cbn [map].
  rewrite !land_255, !Z.shiftr_div_pow2 by lia.
  reflexivity.
Qed.

Lemma digest_length (msg : list Z) : length (SHA1.digest msg) = 20%nat.
Proof. unfold SHA1.digest. rewrite !length_app. reflexivity. Qed.

Lemma digest_bytes (msg : list Z) : Forall is_byte (SHA1.digest msg).
Proof.
  unfold SHA1.digest, SHA1.be32_bytes.
  repeat (apply Forall_app; split);
    repeat (apply Forall_cons; [apply land_255_byte|]); apply Forall_nil.
Qed.

Lemma hmac_length (key msg : list Z) : length (SHA1.hmac key msg) = 20%nat.
Proof. apply digest_length. Qed.

Lemma hmac_bytes (key msg : list Z) : Forall is_byte (SHA1.hmac key msg).
Proof. apply digest_bytes. Qed.

Lemma nth_byte (l : list Z) (i : nat) : Forall is_byte l -> is_byte (nth i l 0).
Proof.
  intros Hl. destruct (Nat.lt_ge_cases i (length l)) as [Hi|Hi].
  - rewrite Forall_forall in Hl. apply Hl, nth_In, Hi.
  - rewrite nth_overflow by exact Hi. unfold is_byte; lia.
Qed.

Lemma getitem_nth (l : list Z) (i : Z) :
  0 <= i < Z.of_nat (length l) ->
  Py.getitem l i = inr (nth (Z.to_nat i) l 0).
Proof.
  intros Hi. unfold Py.getitem.
  replace (i <? 0) with false by (symmetry; apply Z.ltb_ge; lia).
  replace ((0 <=? i) && (i <? Z.of_nat (length l))) with true
    by (symmetry; apply andb_true_intro; split;
        [apply Z.leb_le | apply Z.ltb_lt]; lia).
  destruct (nth_error l (Z.to_nat i)) as [x|] eqn:Hx.
  - now rewrite (nth_error_nth _ _ 0 Hx).
  - apply nth_error_None in Hx. lia.
Qed.

Lemma getitem_last (l : list Z) :
  length l = 20%nat -> Py.getitem l (-1) = inr (nth 19 l 0).
Proof.
  intros Hl.
  do 20 (destruct l as [|? l]; [discriminate Hl|]).
  destruct l; [reflexivity | discriminate Hl].
Qed.

Lemma window4 (l : list Z) (n : nat) :
  (n + 4 <= length l)%nat ->
  firstn 4 (skipn n l)
  = [nth n l 0; nth (n + 1) l 0; nth (n + 2) l 0; nth (n + 3) l 0].
Proof.
  revert n; induction l as [|x l IH]; intros n Hn; [simpl in Hn; lia|].
  destruct n as [|n].
  - destruct l as [|x1 [|x2 [|x3 l]]]; simpl in Hn; try lia. reflexivity.
  - simpl in Hn. cbn [skipn Nat.add nth]. apply IH. lia.
Qed.

End Bytes.

Section Decimal.

Lemma padded_decimal_head (d : nat) (n : Z) :
  Spec.padded_decimal (S d) n
  = Spec.digit_char ((n / 10 ^ Z.of_nat d) mod 10) :: Spec.padded_decimal d n.
Proof.
  unfold Spec.padded_decimal. cbn [seq map].
  replace (S d - 1 - 0)%nat with d by lia. f_equal.
  rewrite <- seq_shift, map_map. apply map_ext; intros i.
  now replace (S d - 1 - S i)%nat with (d - 1 - i)%nat by lia.
Qed.

Lemma padded_decimal_last (d : nat) (n : Z) :
  Spec.padded_decimal (S d) n
  = Spec.padded_decimal d (n / 10) ++ [Spec.digit_char (n mod 10)].
Proof.
  unfold Spec.padded_decimal. rewrite seq_S, map_app. cbn [map Nat.add].
  replace (S d - 1 - d)%nat with 0%nat by lia.
  change (10 ^ Z.of_nat 0) with 1. rewrite Z.div_1_r. f_equal.
  apply map_ext_in; intros i Hi. apply in_seq in Hi.
  replace (S d - 1 - i)%nat with (S (d - 1 - i)) by lia.
  rewrite Nat2Z.inj_succ, Z.pow_succ_r by lia.
  rewrite Z.div_div by lia. reflexivity.
Qed.

Lemma padded_decimal_zeros (m k : nat) (n : Z) :
  0 <= n < 10 ^ Z.of_nat k ->
  Spec.padded_decimal (m + k) n
  = repeat Py.chr0 m ++ Spec.padded_decimal k n.
Proof.
  intros Hn. induction m as [|m IH]; [reflexivity|].
  cbn [Nat.add repeat app]. rewrite padded_decimal_head, IH. f_equal.
  rewrite Z.div_small; [reflexivity|].
  split; [lia|]. apply Z.lt_le_trans with (10 ^ Z.of_nat k); [lia|].
  apply Z.pow_le_mono_r; lia.
Qed.

(** The division loop of [str] writes the digits of [n], as many as [n]
    has. *)
Lemma dec_digits_spec (fuel : nat) :
  forall (n : Z) (acc : list ascii),
    (1 <= fuel)%nat -> 0 <= n < 10 ^ Z.of_nat fuel ->
    exists k : nat,
      (1 <= k)%nat
      /\ (k = 1%nat \/ 10 ^ Z.of_nat (k - 1) <= n)
      /\ n < 10 ^ Z.of_nat k
      /\ Py.dec_digits fuel n acc = Spec.padded_decimal k n ++ acc.
Proof.
  induction fuel as [|fuel IH]; intros n acc Hfuel Hn; [lia|].
  cbn [Py.dec_digits].
  fold (Spec.digit_char (n mod 10)).
  pose proof (Z.div_mod n 10 ltac:(lia)) as Hdm.
  pose proof (Z.mod_pos_bound n 10 ltac:(lia)) as Hmod.
  destruct (n / 10 =? 0) eqn:Hq.
  - apply Z.eqb_eq in Hq.
    exists 1%nat. repeat split; [lia | now left | change (10 ^ Z.of_nat 1) with 10; lia |].
    unfold Spec.padded_decimal. cbn [seq map Nat.sub].
    change (10 ^ Z.of_nat 0) with 1. now rewrite Z.div_1_r.
  - apply Z.eqb_neq in Hq.
    rewrite Nat2Z.inj_succ, Z.pow_succ_r in Hn by lia.
    assert (Hq' : 1 <= n / 10 < 10 ^ Z.of_nat fuel).
    { split.
      - pose proof (Z.div_pos n 10 ltac:(lia) ltac:(lia)). lia.
      - apply Z.div_lt_upper_bound; lia. }
    assert (Hf : (1 <= fuel)%nat).
    { destruct fuel; [|lia]. change (10 ^ Z.of_nat 0) with 1 in Hq'. lia. }
    destruct (IH (n / 10) (Spec.digit_char (n mod 10) :: acc) Hf
                 ltac:(lia)) as (k & Hk & Hmin & Hmax & Heq).
    exists (S k). split; [lia|]. split; [|split].
    + right. replace (S k - 1)%nat with (S (k - 1)) by lia.
      rewrite Nat2Z.inj_succ, Z.pow_succ_r by lia.
      destruct Hmin as [->|Hmin]; [change (10 ^ Z.of_nat (1 - 1)) with 1|]; lia.
    + rewrite Nat2Z.inj_succ, Z.pow_succ_r by lia. lia.
    + rewrite Heq, padded_decimal_last, <- app_assoc. reflexivity.
Qed.

Lemma str_digits (n : Z) :
  0 <= n ->
  exists k : nat,
    (1 <= k)%nat
    /\ (k = 1%nat \/ 10 ^ Z.of_nat (k - 1) <= n)
    /\ n < 10 ^ Z.of_nat k
    /\ Py.str n = Spec.padded_decimal k n.
Proof.
  intros Hn. unfold Py.str.
  replace (n <? 0) with false by (symmetry; apply Z.ltb_ge; lia).
  destruct (dec_digits_spec (S (Z.to_nat (Z.log2 n))) n [])
    as (k & H1 & H2 & H3 & H4).
  - lia.
  - split; [lia|].
    rewrite Nat2Z.inj_succ, Z2Nat.id by apply Z.log2_nonneg.
    destruct (Z.eq_dec n 0) as [->|Hz]; [reflexivity|].
    apply Z.lt_le_trans with (2 ^ Z.succ (Z.log2 n)).
    + apply Z.log2_spec; lia.
    + apply Z.pow_le_mono_l. lia.
  - exists k. rewrite app_nil_r in H4. auto.
Qed.

Lemma digit_char_not_sign (x : Z) :
  0 <= x < 10 ->
  (Ascii.eqb (Spec.digit_char x) "+" || Ascii.eqb (Spec.digit_char x) "-")%bool
  = false.
Proof.
  intros Hx.
  assert (H : x = 0 \/ x = 1 \/ x = 2 \/ x = 3 \/ x = 4 \/ x = 5 \/ x = 6
              \/ x = 7 \/ x = 8 \/ x = 9) by lia.
  repeat (destruct H as [->|H]; [reflexivity|]). subst x; reflexivity.
Qed.

Lemma padded_decimal_length (d : nat) (n : Z) :
  length (Spec.padded_decimal d n) = d.
Proof. unfold Spec.padded_decimal. now rewrite length_map, length_seq. Qed.

(** [str(code).zfill(digits)] is the decimal writing of [code] on exactly
    [digits] positions. *)
Lemma zfill_str (digits : nat) (code : Z) :
  (1 <= digits)%nat -> 0 <= code < 10 ^ Z.of_nat digits ->
  Py.zfill (Py.str code) digits = Spec.padded_decimal digits code.
Proof.
  intros Hd Hc.
  destruct (str_digits code ltac:(lia)) as (k & Hk & Hmin & Hmax & Hstr).
  assert (Hkd : (k <= digits)%nat).
  { destruct Hmin as [->|Hmin]; [lia|].
    destruct (Nat.le_gt_cases k digits) as [|Hgt]; [assumption|].
    assert (10 ^ Z.of_nat digits <= 10 ^ Z.of_nat (k - 1))
      by (apply Z.pow_le_mono_r; lia).
    lia. }
  assert (Hlt : 0 <= code < 10 ^ Z.of_nat k) by lia.
  replace (Spec.padded_decimal digits code)
    with (repeat Py.chr0 (digits - k) ++ Spec.padded_decimal k code).
  2:{ rewrite <- (padded_decimal_zeros (digits - k) k code Hlt).
      f_equal; lia. }
  unfold Py.zfill. rewrite Hstr, padded_decimal_length.
  destruct k as [|k]; [lia|].
  rewrite padded_decimal_head. cbv zeta.
  now rewrite digit_char_not_sign by (apply Z.mod_pos_bound; lia).
Qed.

End Decimal.

Section CodeEngine.

Import TOTPGenerator.

Variables (secret : string) (key : list Z) (digits : nat) (time_step now : Z).
Hypothesis Hdecodes : base32_decode secret = inr key.
Hypothesis Hdigits : (1 <= digits)%nat.
Hypothesis Hstep : 1 <= time_step.
Hypothesis Hcounter : 0 <= now / time_step < 2 ^ 64.

(** With a key that decodes and a counter that fits eight bytes, no step of
    [generate_totp] raises, and the code is the one the specification
    describes. *)
Lemma generate_totp_try_ok :
  generate_totp_try secret digits time_step now
  = inr (Spec.generate key digits time_step now).
Proof using Hdecodes Hdigits Hstep Hcounter.
  unfold generate_totp_try, Spec.generate.
  rewrite Hdecodes. cbn [bind].
  unfold Py.floordiv.
  replace (time_step =? 0) with false by (symmetry; apply Z.eqb_neq; lia).
  cbn [bind ret].
  rewrite struct_pack_Q_bytes by exact Hcounter.
  cbn [bind].
  set (mac := SHA1.hmac key (Spec.counter_bytes (now / time_step))).
  assert (Hlen : length mac = 20%nat) by apply hmac_length.
  assert (Hbytes : Forall is_byte mac) by apply hmac_bytes.
  rewrite (getitem_last mac Hlen). cbn [bind].
  set (offset := Z.land (nth 19 mac 0) 15).
  assert (Hoff : 0 <= offset < 16).
  { unfold offset. change 15 with (Z.ones 4). rewrite Z.land_ones by lia.
    apply Z.mod_pos_bound; lia. }
  rewrite !getitem_nth by (rewrite Hlen; lia). cbn [bind].
  rewrite pack_big_endian; try (apply nth_byte; exact Hbytes).
  2:{ change 127 with (Z.ones 7). rewrite Z.land_ones by lia.
      apply Z.mod_pos_bound; lia. }
  unfold ret. f_equal.
  rewrite zfill_str;
    [| exact Hdigits | apply Z.mod_pos_bound; apply Z.pow_pos_nonneg; lia].
  unfold Spec.truncate. fold offset.
  rewrite window4 by (rewrite Hlen; lia).
  rewrite !Z2Nat.inj_add by lia.
  reflexivity.
Qed.

Lemma generate_totp_ok :
  generate_totp secret digits time_step now
  = Spec.generate key digits time_step now.
Proof using Hdecodes Hdigits Hstep Hcounter.
  unfold generate_totp. now rewrite generate_totp_try_ok.
Qed.

End CodeEngine.

Lemma padded_decimal_digits (d : nat) (n : Z) :
  forallb is_digit (Spec.padded_decimal d n) = true.
Proof.
  unfold Spec.padded_decimal. apply forallb_forall. intros c Hc.
  apply in_map_iff in Hc. destruct Hc as (i & <- & _).
  pose proof (Z.mod_pos_bound (n / 10 ^ Z.of_nat (d - 1 - i)) 10 ltac:(lia))
    as Hx.
  set (x := (n / 10 ^ Z.of_nat (d - 1 - i)) mod 10) in *.
  assert (H : x = 0 \/ x = 1 \/ x = 2 \/ x = 3 \/ x = 4 \/ x = 5 \/ x = 6
              \/ x = 7 \/ x = 8 \/ x = 9) by lia.
  repeat (destruct H as [->|H]; [reflexivity|]). rewrite H; reflexivity.
Qed.

Lemma string_of_list_length (l : list ascii) :
  String.length (string_of_list_ascii l) = length l.
Proof. induction l as [|c l IH]; simpl; [reflexivity | now rewrite IH]. Qed.

Lemma generate_length (key : list Z) (digits : nat) (step t : Z) :
  String.length (Spec.generate key digits step t) = digits.
Proof.
  unfold Spec.generate.
  now rewrite string_of_list_length, padded_decimal_length.
Qed.

Lemma generate_not_error (key : list Z) (digits : nat) (step t : Z) :
  Spec.generate key digits step t <> "ERROR"%string.
Proof.
  unfold Spec.generate. intros Heq.
  apply (f_equal list_ascii_of_string) in Heq.
  rewrite list_ascii_of_string_of_list_ascii in Heq.
  pose proof (padded_decimal_digits digits
                (Spec.truncate (SHA1.hmac key (Spec.counter_bytes (t / step)))
                 mod 10 ^ Z.of_nat digits)) as Hd.
  rewrite Heq in Hd. discriminate Hd.
Qed.

(** C1, as the code has it: for a secret that decodes, [digits >= 1],
    [time_step >= 1] and an
    epoch time [now] whose counter [floor(now / time_step)] is one that eight
    bytes can hold, [generate_totp] returns the decimal writing of
    [binary mod 10 ^ digits] on exactly [digits] characters, [binary] being
    cut out of the HMAC-SHA1 of the big-endian counter at
    [offset = mac[19] & 0x0F] with the first byte masked by [0x7F]; the
    RFC 6238 secret, 8 digits, step 30, time 59 give 94287082. *)
Theorem generate_totp_spec :
  (forall (secret : string) (key : list Z) (digits : nat) (time_step now : Z),
      TOTPGenerator.base32_decode secret = inr key ->
      (1 <= digits)%nat -> 1 <= time_step ->
      0 <= now / time_step < 2 ^ 64 ->
      TOTPGenerator.generate_totp secret digits time_step now
      = Spec.generate key digits time_step now
      /\ String.length
           (TOTPGenerator.generate_totp secret digits time_step now) = digits)
  /\ TOTPGenerator.base32_decode "GEZDGNBVGY3TQOJQGEZDGNBVGY3TQOJQ"
     = inr (ascii_bytes "12345678901234567890")
  /\ TOTPGenerator.generate_totp "GEZDGNBVGY3TQOJQGEZDGNBVGY3TQOJQ" 8 30 59
     = "94287082"%string.
Proof.
  split; [|split; vm_compute; reflexivity].
  intros secret key digits time_step now Hdec Hd Hs Hc.
  rewrite (generate_totp_ok secret key digits time_step now Hdec Hd Hs Hc).
  split; [reflexivity | apply generate_length].
Qed.

Lemma generate_totp_spec_witness :
  TOTPGenerator.generate_totp "GEZDGNBVGY3TQOJQGEZDGNBVGY3TQOJQ" 6 30 1111111109
  = Spec.generate (ascii_bytes "12345678901234567890") 6 30 1111111109.
Proof.
  apply (proj1 generate_totp_spec);
    [vm_compute; reflexivity | lia | lia
     | split; vm_compute; [discriminate | reflexivity]].
Defined.

(** C1 as stated fails for an epoch time before 1970: at [now = -1] the
    counter is [-1], [struct.pack] refuses it, and the code returns the
    text ERROR -- five characters, none a digit -- although the secret
    decodes, six digits are asked for and the step is 30. *)
Lemma generate_totp_before_epoch :
  TOTPGenerator.base32_decode "GEZDGNBVGY3TQOJQGEZDGNBVGY3TQOJQ"
  = inr (ascii_bytes "12345678901234567890")
  /\ TOTPGenerator.generate_totp "GEZDGNBVGY3TQOJQGEZDGNBVGY3TQOJQ" 6 30 (-1)
     = "ERROR"%string
  /\ String.length
       (TOTPGenerator.generate_totp "GEZDGNBVGY3TQOJQGEZDGNBVGY3TQOJQ" 6 30 (-1))
     <> 6%nat.
Proof.
  split; [vm_compute; reflexivity|].
  split; [vm_compute; reflexivity|].
  vm_compute. discriminate.
Qed.

(** C3, as the code has it: for a secret that does not decode,
    [generate_totp] does not fail; it catches the exception and returns the
    text ERROR.  A caller can still tell that text from a code, because
    every code is made of decimal digits only. *)
Theorem generate_totp_undecodable
  (secret : string) (e : exn) (digits : nat) (time_step now : Z) :
  TOTPGenerator.base32_decode secret = inl e ->
  TOTPGenerator.generate_totp secret digits time_step now = "ERROR"%string
  /\ (forall (secret' : string) (key : list Z) (digits' : nat)
             (time_step' now' : Z),
         TOTPGenerator.base32_decode secret' = inr key ->
         (1 <= digits')%nat -> 1 <= time_step' ->
         0 <= now' / time_step' < 2 ^ 64 ->
         forallb is_digit
           (list_ascii_of_string
              (TOTPGenerator.generate_totp secret' digits' time_step' now'))
         = true
         /\ TOTPGenerator.generate_totp secret' digits' time_step' now'
            <> "ERROR"%string).
Proof.
  intros Hdec. split.
  - unfold TOTPGenerator.generate_totp, TOTPGenerator.generate_totp_try.
    now rewrite Hdec.
  - intros secret' key digits' step' now' Hdec' Hd Hs Hc.
    rewrite (generate_totp_ok secret' key digits' step' now' Hdec' Hd Hs Hc).
    split; [|apply generate_not_error].
    unfold Spec.generate. rewrite list_ascii_of_string_of_list_ascii.
    apply padded_decimal_digits.
Qed.

Lemma generate_totp_undecodable_witness :
  TOTPGenerator.generate_totp "not base32!" 6 30 59 = "ERROR"%string.
Proof.
  apply (generate_totp_undecodable "not base32!"
           (TOTPGenerator.invalid_character "!") 6 30 59).
  vm_compute; reflexivity.
Defined.

(** C3 as stated fails: on the secret 1, which does not decode, the caller
    gets a string back, not a failure. *)
Lemma generate_totp_returns_sentinel :
  (exists e : exn, TOTPGenerator.base32_decode "1" = inl e)
  /\ TOTPGenerator.generate_totp "1" 6 30 59 = "ERROR"%string.
Proof.
  split; [eexists|]; vm_compute; reflexivity.
Qed.

(** Outside that range [struct.pack] raises and the code shows ERROR. *)
Lemma generate_totp_counter_out_of_range
  (secret : string) (digits : nat) (time_step now : Z) :
  1 <= time_step -> now / time_step < 0 \/ 2 ^ 64 <= now / time_step ->
  TOTPGenerator.generate_totp secret digits time_step now = "ERROR"%string.
Proof.
  intros Hs Hc.
  unfold TOTPGenerator.generate_totp, TOTPGenerator.generate_totp_try.
  destruct (TOTPGenerator.base32_decode secret) as [e|key]; [reflexivity|].
  cbn [bind]. unfold Py.floordiv.
  replace (time_step =? 0) with false by (symmetry; apply Z.eqb_neq; lia).
  cbn [bind ret]. unfold Py.struct_pack_Q.
  replace ((0 <=? now / time_step) && (now / time_step <? 2 ^ 64)) with false;
    [reflexivity|].
  symmetry. apply andb_false_iff.
  destruct Hc; [left; apply Z.leb_gt | right; apply Z.ltb_ge]; lia.
Qed.

(** ** SecretStore: the verifiers of [TwoFactorAuthApp] *)

Section Store.

Import TwoFactorAuthApp.

Ltac run :=
  unfold load_verifiers, save_verifiers, render_verifiers, update_stats,
    andthen, try_except, pure, throw, lift, get_verifiers, set_verifiers,
    get_file, set_file, emit, open_w, json_dump, interrupted_save, save_steps
    in *;
  cbn [fst snd verifiers data_file disk ui apply_step fold_left firstn
       read_json raise ret] in *.

(** What [save_verifiers] leaves behind, by the state of the disk. *)
Lemma save_verifiers_cases (w : app) :
  save_verifiers w
  = match disk w with
    | NoFault =>
      (inr true,
       mkApp (verifiers w) (Document (JArr (verifiers w))) (disk w) (ui w))
    | OpenFails =>
      (inr false,
       mkApp (verifiers w) (data_file w) (disk w)
             (ui w ++ [ShowError (SaveFailed OSError)]))
    | WriteFails =>
      (inr false,
       mkApp (verifiers w) Unparseable (disk w)
             (ui w ++ [ShowError (SaveFailed OSError)]))
    end.
Proof. destruct w as [vs f d u]; destruct d; reflexivity. Qed.

Lemma save_verifiers_keeps_list (w : app) :
  verifiers (snd (save_verifiers w)) = verifiers w
  /\ disk (snd (save_verifiers w)) = disk w.
Proof. rewrite save_verifiers_cases. destruct (disk w); split; reflexivity. Qed.

(** Rendering and the statistics touch the user interface only. *)
Lemma render_verifiers_frame (w : app) :
  verifiers (snd (render_verifiers w)) = verifiers w
  /\ data_file (snd (render_verifiers w)) = data_file w.
Proof.
  run. destruct (build_cards (verifiers w) []) as [cards [e|]];
    split; reflexivity.
Qed.

Lemma finish_frame (saved : bool) (last : App unit) (w : app) :
  (forall w', verifiers (snd (last w')) = verifiers w'
              /\ data_file (snd (last w')) = data_file w') ->
  let out := (if saved then _ <~ render_verifiers ;; last else pure tt) w in
  verifiers (snd out) = verifiers w /\ data_file (snd out) = data_file w.
Proof.
  intros Hlast out. subst out.
  destruct saved; [|split; reflexivity].
  unfold andthen.
  destruct (render_verifiers_frame w) as [Hr1 Hr2].
  destruct (render_verifiers w) as [[e|[]] w1]; cbn [fst snd] in *;
    [split; assumption|].
  destruct (Hlast w1) as [Hl1 Hl2]. rewrite Hl1, Hl2. split; assumption.
Qed.

Lemma andthen_save {A} (k : bool -> App A) (w : app) :
  (saved <~ save_verifiers ;; k saved) w
  = k (match disk w with NoFault => true | _ => false end)
      (snd (save_verifiers w)).
Proof.
  unfold andthen. rewrite save_verifiers_cases.
  destruct (disk w); reflexivity.
Qed.

Lemma after_save_frame (w : app) (last : App unit) :
  (forall w', verifiers (snd (last w')) = verifiers w'
              /\ data_file (snd (last w')) = data_file w') ->
  let out :=
    (saved <~ save_verifiers ;;
     if saved then _ <~ render_verifiers ;; last else pure tt) w in
  verifiers (snd out) = verifiers w
  /\ data_file (snd out) = data_file (snd (save_verifiers w)).
Proof.
  intros Hlast out. subst out.
  rewrite (andthen_save
             (fun saved =>
                if saved then _ <~ render_verifiers ;; last else pure tt)).
  match goal with |- context [(if ?b then _ else _) ?x] =>
    destruct (finish_frame b last x Hlast) as [H1 H2] end.
  rewrite H1, H2. split; [apply save_verifiers_keeps_list | reflexivity].
Qed.

Lemma update_stats_frame (w : app) :
  verifiers (snd (update_stats w)) = verifiers w
  /\ data_file (snd (update_stats w)) = data_file w.
Proof. split; reflexivity. Qed.

Lemma pop_in_range {A} (l : list A) (index : Z) :
  0 <= index < Z.of_nat (length l) ->
  exists x : A,
    Py.pop l index
    = inr (x, firstn (Z.to_nat index) l ++ skipn (S (Z.to_nat index)) l).
Proof.
  intros Hi. unfold Py.pop.
  replace (index <? 0) with false by (symmetry; apply Z.ltb_ge; lia).
  replace ((0 <=? index) && (index <? Z.of_nat (length l))) with true
    by (symmetry; apply andb_true_intro; split;
        [apply Z.leb_le | apply Z.ltb_lt]; lia).
  destruct (nth_error l (Z.to_nat index)) as [x|] eqn:Hx.
  - exists x; reflexivity.
  - apply nth_error_None in Hx. lia.
Qed.

Lemma delete_verifier_ignored (w : app) (index : Z) :
  index < 0 \/ Z.of_nat (length (verifiers w)) <= index ->
  delete_verifier index w = (inr tt, w).
Proof.
  intros Hout. unfold delete_verifier, andthen, get_verifiers.
  replace ((0 <=? index) && (index <? Z.of_nat (length (verifiers w))))
    with false; [reflexivity|].
  symmetry. apply andb_false_iff.
  destruct Hout; [left; apply Z.leb_gt | right; apply Z.ltb_ge]; lia.
Qed.

Lemma delete_verifier_run (w : app) (index : Z) :
  0 <= index < Z.of_nat (length (verifiers w)) ->
  delete_verifier index w
  = (saved <~ save_verifiers ;;
     if saved then _ <~ render_verifiers ;; update_stats else pure tt)
      (mkApp (firstn (Z.to_nat index) (verifiers w)
                ++ skipn (S (Z.to_nat index)) (verifiers w))
             (data_file w) (disk w) (ui w)).
Proof.
  intros Hin.
  unfold delete_verifier. unfold andthen at 1. unfold get_verifiers at 1.
  replace ((0 <=? index) && (index <? Z.of_nat (length (verifiers w))))
    with true
    by (symmetry; apply andb_true_intro; split;
        [apply Z.leb_le | apply Z.ltb_lt]; lia).
  destruct (pop_in_range (verifiers w) index Hin) as [x Hpop].
  unfold andthen at 1. unfold lift. rewrite Hpop. reflexivity.
Qed.

(** C7, as the code has it: an index outside [0, n) is ignored -- the call
    returns normally, shows nothing, and leaves list and file as they were;
    an index inside removes exactly the record at that position, keeps the
    order of the others, and, when the disk accepts the write, leaves the
    shortened list in the data file. *)
Theorem delete_verifier_spec (w : app) (index : Z) :
  (index < 0 \/ Z.of_nat (length (verifiers w)) <= index ->
   delete_verifier index w = (inr tt, w)
   /\ signals_failure w (delete_verifier index w) = false)
  /\ (0 <= index < Z.of_nat (length (verifiers w)) ->
      let i := Z.to_nat index in
      let w' := snd (delete_verifier index w) in
      verifiers w' = firstn i (verifiers w) ++ skipn (S i) (verifiers w)
      /\ (disk w = NoFault -> data_file w' = Document (JArr (verifiers w')))).
Proof.
  split.
  - intros Hout. rewrite (delete_verifier_ignored w index Hout).
    split; [reflexivity|].
    unfold signals_failure. cbn [fst snd]. now rewrite skipn_all.
  - intros Hin i w'. subst i w'.
    rewrite (delete_verifier_run w index Hin).
    match goal with |- context [andthen _ _ ?x] => set (w1 := x) end.
    destruct (after_save_frame w1 update_stats update_stats_frame) as [Hv Hf].
    split; [exact Hv|].
    intros Hdisk. rewrite Hv, Hf, save_verifiers_cases.
    subst w1; cbn [disk]. rewrite Hdisk. reflexivity.
Qed.

Lemma delete_verifier_spec_witness :
  let a := entry "mail" "MFRGG" in
  let b := entry "shop" "ME" in
  let w := mkApp [a; b] (Document (JArr [a; b])) NoFault [] in
  delete_verifier 7 w = (inr tt, w)
  /\ verifiers (snd (delete_verifier 0 w)) = [b]
  /\ data_file (snd (delete_verifier 0 w)) = Document (JArr [b]).
Proof.
  cbv zeta.
  set (w := mkApp [entry "mail" "MFRGG"; entry "shop" "ME"]
                  (Document (JArr [entry "mail" "MFRGG"; entry "shop" "ME"]))
                  NoFault []).
  destruct (delete_verifier_spec w 7) as [Hout _].
  destruct (delete_verifier_spec w 0) as [_ Hin].
  destruct (Hout ltac:(right; vm_compute; discriminate)) as [Hsame _].
  destruct (Hin ltac:(split; vm_compute; [discriminate | reflexivity]))
    as [Hlist Hfile].
  split; [exact Hsame|]. split; [exact Hlist|].
  rewrite (Hfile eq_refl). rewrite Hlist. reflexivity.
Defined.

(** C7 as stated fails: with one verifier stored, [delete_verifier(5)]
    returns normally and shows nothing; no failure reaches the caller. *)
Lemma delete_verifier_out_of_range_is_silent :
  let w := mkApp [entry "mail" "MFRGG"]
                 (Document (JArr [entry "mail" "MFRGG"])) NoFault [] in
  delete_verifier 5 w = (inr tt, w)
  /\ signals_failure w (delete_verifier 5 w) = false.
Proof. split; vm_compute; reflexivity. Qed.

(** C6, as the code has it: [load_verifiers] returns the content of the
    data file, in its order, when the file holds a JSON document, and the
    empty list when there is no file; when the file is there but cannot be
    parsed it does not fail: it shows a warning and returns the empty list. *)
Theorem load_verifiers_spec (w : app) :
  load_verifiers w
  = match data_file w with
    | Missing => (inr (JArr []), w)
    | Document v => (inr v, w)
    | Unparseable =>
      (inr (JArr []),
       mkApp (verifiers w) (data_file w) (disk w)
             (ui w ++ [ShowWarning (LoadFailed JSONDecodeError)]))
    end.
Proof. destruct w as [vs [|v|] d u]; reflexivity. Qed.

(** C6 as stated fails: a data file that exists and does not parse is read
    as the empty list, the same answer as for no file at all, and nothing is
    raised. *)
Lemma load_verifiers_reads_corrupt_as_empty :
  fst (load_verifiers (mkApp [] Unparseable NoFault [])) = inr (JArr [])
  /\ fst (load_verifiers (mkApp [] Missing NoFault [])) = inr (JArr []).
Proof. split; reflexivity. Qed.

(** C9, as the code has it: [save_verifiers] opens the data file for
    writing, which empties it, and then writes the whole list into it; there
    is no temporary file and no rename.  When both steps are done the file
    holds the list as it is, and [load_verifiers] returns it.  Stopped before
    the first step the file is untouched; stopped between the two steps, or
    when the write raises, the file is left emptied or cut short, and
    [load_verifiers] then returns the empty list. *)
Theorem save_verifiers_spec (w : app) :
  (disk w = NoFault ->
   save_verifiers w = (inr true, interrupted_save 2 w)
   /\ data_file (snd (save_verifiers w)) = Document (JArr (verifiers w))
   /\ fst (load_verifiers (snd (save_verifiers w))) = inr (JArr (verifiers w)))
  /\ (disk w = WriteFails ->
      fst (save_verifiers w) = inr false
      /\ data_file (snd (save_verifiers w)) = data_file (interrupted_save 1 w))
  /\ interrupted_save 0 w = w
  /\ data_file (interrupted_save 1 w) = Unparseable
  /\ fst (load_verifiers (interrupted_save 1 w)) = inr (JArr []).
Proof.
  destruct w as [vs f d u].
  split; [|split; [|repeat split]].
  - cbn [disk]; intros ->. repeat split.
  - cbn [disk]; intros ->. split; reflexivity.
Qed.

Lemma save_verifiers_spec_witness :
  let w := mkApp [entry "mail" "MFRGG"] Missing NoFault [] in
  fst (load_verifiers (snd (save_verifiers w)))
  = inr (JArr [entry "mail" "MFRGG"]).
Proof.
  cbv zeta.
  exact (proj2 (proj2 (proj1 (save_verifiers_spec
                                (mkApp [entry "mail" "MFRGG"] Missing
                                       NoFault [])) eq_refl))).
Defined.

(** C9 as stated fails: with [a] on disk and [a; b] being saved, a stop
    after the file was opened leaves a file from which [load_verifiers]
    reads neither the previous list nor the new one. *)
Lemma save_verifiers_is_not_atomic :
  let a := entry "mail" "MFRGG" in
  let b := entry "shop" "ME" in
  let w := mkApp [a; b] (Document (JArr [a])) NoFault [] in
  fst (load_verifiers w) = inr (JArr [a])
  /\ fst (load_verifiers (snd (save_verifiers w))) = inr (JArr [a; b])
  /\ fst (load_verifiers (interrupted_save 1 w)) = inr (JArr []).
Proof. repeat split. Qed.

(** C4, the code at the failing input: the store holds one verifier whose
    key decodes; importing a file with a verifier whose key is the text 1
    replaces the store by it, although that key does not decode and its
    card can only show ERROR. *)
Theorem import_data_admits_undecodable_key :
  let good := entry "mail" "MFRGG" in
  let bad := entry "x" "1" in
  let w := mkApp [good] (Document (JArr [good])) NoFault [] in
  let w' := snd (import_data (Some (Document (JArr [bad]))) true w) in
  forallb decodable (verifiers w) = true
  /\ verifiers w' = [bad]
  /\ data_file w' = Document (JArr [bad])
  /\ forallb decodable (verifiers w') = false
  /\ TOTPGenerator.generate_totp "1" 6 30 59 = "ERROR"%string.
Proof. repeat split; vm_compute; reflexivity. Qed.

(** C5, the code at the failing input: a file whose second record has an
    empty name and a key that does not decode is imported whole; the store
    and the data file are replaced and the success box is shown, while
    [add_verifier] turns the same name or the same key down. *)
Theorem import_data_checks_shape_only :
  let good := entry "mail" "MFRGG" in
  let bad := entry "" "not base32!" in
  let w := mkApp [good] (Document (JArr [good])) NoFault [] in
  let out := import_data (Some (Document (JArr [good; bad]))) true w in
  fst out = inr tt
  /\ verifiers (snd out) = [good; bad]
  /\ data_file (snd out) = Document (JArr [good; bad])
  /\ signals_failure w out = false
  /\ last (ui (snd out)) ResetEntries = ShowInfo Imported
  /\ add_verifier "" "MFRGG" w
     = (inr tt, mkApp [good] (data_file w) NoFault [ShowWarning EnterName])
  /\ add_verifier "x" "not base32!" w
     = (inr tt,
        mkApp [good] (data_file w) NoFault
              [ShowError (InvalidKey (TOTPGenerator.invalid_character "!"))]).
Proof. repeat split; vm_compute; reflexivity. Qed.

(** *** The store invariant on the paths that keep it *)

Lemma decodable_entry (name key : string) (bytes : list Z) :
  TOTPGenerator.base32_decode key = inr bytes ->
  decodable (entry name key) = true.
Proof.
  intros Hdec. unfold decodable, subscript, entry. cbn [lookup].
  change (String.eqb "name" "key") with false.
  change (String.eqb "key" "key") with true.
  cbv iota. cbn [ret]. now rewrite Hdec.
Qed.

Lemma forallb_without {A} (p : A -> bool) (i : nat) (l : list A) :
  forallb p l = true -> forallb p (firstn i l ++ skipn (S i) l) = true.
Proof.
  revert i; induction l as [|x l IH]; intros i H.
  - now destruct i.
  - cbn [forallb] in H. apply andb_prop in H. destruct H as [Hx Hl].
    destruct i as [|i]; [exact Hl|].
    cbn [firstn skipn List.app forallb]. now rewrite Hx, IH.
Qed.

Lemma stats_then_emit_frame (e : event) (w : app) :
  verifiers (snd ((_ <~ update_stats ;; emit e) w)) = verifiers w
  /\ data_file (snd ((_ <~ update_stats ;; emit e) w)) = data_file w.
Proof. split; reflexivity. Qed.

(** [add_verifier] stores a verifier only when its key decodes. *)
Lemma add_verifier_keeps_decodable (name_entry key_entry : string) (w : app) :
  forallb decodable (verifiers w) = true ->
  forallb decodable (verifiers (snd (add_verifier name_entry key_entry w)))
  = true.
Proof.
  intros Hinv. unfold add_verifier.
  destruct (_ || _)%bool; [exact Hinv|].
  destruct (_ || _)%bool; [exact Hinv|].
  destruct (TOTPGenerator.base32_decode (Py.strip key_entry)) as [e|bytes]
    eqn:Hdec; [exact Hinv|].
  unfold andthen at 1. unfold get_verifiers at 1.
  unfold andthen at 1. unfold set_verifiers at 1.
  match goal with |- context [andthen _ _ ?x] => set (w1 := x) end.
  destruct (after_save_frame w1 (_ <~ update_stats ;; emit ResetEntries)
              (stats_then_emit_frame ResetEntries)) as [Hv _].
  rewrite Hv. subst w1. cbn [verifiers].
  rewrite forallb_app, Hinv. cbn [forallb].
  now rewrite (decodable_entry _ _ _ Hdec).
Qed.

Lemma delete_verifier_keeps_decodable (index : Z) (w : app) :
  forallb decodable (verifiers w) = true ->
  forallb decodable (verifiers (snd (delete_verifier index w))) = true.
Proof.
  intros Hinv.
  destruct (Z.lt_ge_cases index 0) as [Hneg|Hpos];
    [rewrite delete_verifier_ignored by (left; exact Hneg); exact Hinv|].
  destruct (Z.lt_ge_cases index (Z.of_nat (length (verifiers w))))
    as [Hin|Hout];
    [|rewrite delete_verifier_ignored by (right; exact Hout); exact Hinv].
  rewrite delete_verifier_run by lia.
  match goal with |- context [andthen _ _ ?x] => set (w1 := x) end.
  destruct (after_save_frame w1 update_stats update_stats_frame) as [Hv _].
  rewrite Hv. subst w1. cbn [verifiers]. now apply forallb_without.
Qed.

Lemma clear_all_keeps_decodable (confirm : bool) (w : app) :
  forallb decodable (verifiers w) = true ->
  forallb decodable (verifiers (snd (clear_all confirm w))) = true.
Proof.
  intros Hinv. unfold clear_all.
  unfold andthen at 1. unfold get_verifiers at 1.
  destruct (verifiers w) as [|v vs] eqn:Hvs; [cbn; now rewrite Hvs|].
  destruct confirm; [|cbn; now rewrite Hvs].
  unfold andthen at 1. unfold set_verifiers at 1.
  match goal with |- context [andthen _ _ ?x] => set (w1 := x) end.
  destruct (after_save_frame w1 (_ <~ update_stats ;; emit (ShowInfo Cleared))
              (stats_then_emit_frame (ShowInfo Cleared))) as [Hv _].
  rewrite Hv. reflexivity.
Qed.

(** *** What [import_data] does check *)

Lemma find_non_entry (items : list json) :
  forallb is_entry items = false ->
  exists item, find (fun item => negb (is_entry item)) items = Some item.
Proof.
  induction items as [|x items IH]; cbn [forallb find]; [discriminate|].
  destruct (is_entry x); cbn [negb andb]; [exact IH | now exists x].
Qed.

Lemma signals_failure_after_error {A} (w : app) (r : result A) (m : message) :
  signals_failure w
    (r, mkApp (verifiers w) (data_file w) (disk w) (ui w ++ [ShowError m]))
  = true.
Proof.
  unfold signals_failure. cbn [fst snd ui].
  destruct r; [reflexivity|].
  now rewrite skipn_app, skipn_all, Nat.sub_diag.
Qed.

(** A file that cannot be read, is not a JSON array, or has an element
    that is not an object with both fields is turned down with an error box,
    and neither the list nor the data file changes. *)
Lemma import_data_rejects_malformed (f : file) (confirm : bool) (w : app) :
  match f with
  | Document (JArr items) => forallb is_entry items = false
  | _ => True
  end ->
  verifiers (snd (import_data (Some f) confirm w)) = verifiers w
  /\ data_file (snd (import_data (Some f) confirm w)) = data_file w
  /\ signals_failure w (import_data (Some f) confirm w) = true.
Proof.
  intros Hbad.
  assert (Hrun : exists m : message,
             import_data (Some f) confirm w
             = (inr tt, mkApp (verifiers w) (data_file w) (disk w)
                              (ui w ++ [ShowError m]))).
  { unfold import_data, try_except, andthen, lift.
    destruct f as [|v|]; cbn [read_json raise ret];
      try (eexists; reflexivity).
    destruct v; try (eexists; reflexivity).
    destruct (find_non_entry items Hbad) as [item Hfind]. rewrite Hfind.
    eexists; reflexivity. }
  destruct Hrun as [m ->].
  repeat split. apply signals_failure_after_error.
Qed.

End Store.

(** ** The library models on their published test vectors *)

(** FIPS 180 example: the digest of the three bytes of the text abc. *)
Lemma sha1_abc :
  SHA1.digest (ascii_bytes "abc")
  = [0xA9; 0x99; 0x3E; 0x36; 0x47; 0x06; 0x81; 0x6A; 0xBA; 0x3E;
     0x25; 0x71; 0x78; 0x50; 0xC2; 0x6C; 0x9C; 0xD0; 0xD8; 0x9D].
Proof. vm_compute. reflexivity. Qed.

(** RFC 2202, test case 2: key Jefe. *)
Lemma hmac_sha1_rfc2202 :
  SHA1.hmac (ascii_bytes "Jefe") (ascii_bytes "what do ya want for nothing?")
  = [0xEF; 0xFC; 0xDF; 0x6A; 0xE5; 0xEB; 0x2F; 0xA2; 0xD2; 0x74;
     0x16; 0xD5; 0xF1; 0x84; 0xDF; 0x9C; 0x25; 0x9A; 0x7C; 0x79].
Proof. vm_compute. reflexivity. Qed.

(** RFC 6238, appendix B, SHA-1 rows, eight digits. *)
Lemma totp_rfc6238 :
  map (TOTPGenerator.generate_totp "GEZDGNBVGY3TQOJQGEZDGNBVGY3TQOJQ" 8 30)
      [59; 1111111109; 1111111111; 1234567890; 2000000000; 20000000000]
  = ["94287082"; "07081804"; "14050471"; "89005924"; "69279037";
     "65353130"]%string.
Proof. vm_compute. reflexivity. Qed.

(** * Further properties of the code *)

(** ** [base32_decode]: what it accepts and what it ignores *)

Section Base32More.

Import TOTPGenerator.









(** What each of the 256 characters does to the decoder. *)
Lemma accepted_char_agrees (c : ascii) :
  accepted_char c
  = if negb (Ascii.eqb (Py.upper_char c) " "
             || Ascii.eqb (Py.upper_char c) "=")
    then match Spec.symbol_value (Py.upper_char c) with
         | Some _ => true
         | None => false
         end
    else true.
Proof. destruct c as [[] [] [] [] [] [] [] []]; reflexivity. Qed.

Lemma symbols_of_text (l : list ascii) :
  let kept :=
    filter (fun c => negb (Ascii.eqb c " " || Ascii.eqb c "="))
           (map Py.upper_char l) in
  match find (fun c => negb (accepted_char c)) l with
  | Some c => Spec.symbols kept = inl (Spec.InvalidSymbol (Py.upper_char c))
  | None => exists vs, Spec.symbols kept = inr vs
  end.
Proof.
  induction l as [|c l IH]; cbn [map filter find].
  - now exists [].
  - rewrite (accepted_char_agrees c).
    destruct (negb (Ascii.eqb (Py.upper_char c) " "
                    || Ascii.eqb (Py.upper_char c) "=")).
    + cbn [Spec.symbols].
      destruct (Spec.symbol_value (Py.upper_char c)) as [v|];
        cbn [negb]; [|reflexivity].
      cbv zeta in IH.
      destruct (find (fun c0 => negb (accepted_char c0)) l) as [c'|].
      * now rewrite IH.
      * destruct IH as [vs ->]. now exists (v :: vs).
    + cbn [negb]. exact IH.
Qed.



End Base32More.



(** X2: of the ASCII texts, [base32_decode] accepts exactly those made of
    letters of either case, the digits 2 to 7, spaces and '='; on any other
    ASCII text it raises [ValueError] naming the first other character,
    uppercased. *)
Theorem base32_decode_accepts (text : string) :
  forallb is_ascii (list_ascii_of_string text) = true ->
  match find (fun c => negb (accepted_char c)) (list_ascii_of_string text) with
  | Some c =>
    TOTPGenerator.base32_decode text
    = inl (TOTPGenerator.invalid_character (Py.upper_char c))
  | None => exists key, TOTPGenerator.base32_decode text = inr key
  end.
Proof.
  intros _.
  rewrite base32_decode_refines. unfold Spec.decode.
  pose proof (symbols_of_text (list_ascii_of_string text)) as H.
  cbv zeta in H. fold (Spec.stripped text) in H.
  destruct (find _ (list_ascii_of_string text)) as [c|].
  - now rewrite H.
  - destruct H as [vs ->]. eexists; reflexivity.
Qed.

Lemma base32_decode_accepts_witness :
  TOTPGenerator.base32_decode "me 2!"
  = inl (TOTPGenerator.invalid_character "!").
Proof.
  exact (base32_decode_accepts "me 2!" eq_refl).
Defined.






(** ** [generate_totp]: every way it can end, and how codes relate *)

Section EngineMore.

Import TOTPGenerator.

(** The body runs through whenever the key decodes, the step is not zero
    and the counter fits eight bytes; the step may be negative. *)
Lemma generate_totp_try_run
  (secret : string) (key : list Z) (digits : nat) (time_step now : Z) :
  base32_decode secret = inr key ->
  (1 <= digits)%nat -> time_step <> 0 ->
  0 <= now / time_step < 2 ^ 64 ->
  generate_totp_try secret digits time_step now
  = inr (Spec.generate key digits time_step now).
Proof.
  intros Hdecodes Hdigits Hstep Hcounter.
  unfold generate_totp_try, Spec.generate.
  rewrite Hdecodes. cbn [bind].
  unfold Py.floordiv.
  replace (time_step =? 0) with false by (symmetry; apply Z.eqb_neq; lia).
  cbn [bind ret].
  rewrite struct_pack_Q_bytes by exact Hcounter.
  cbn [bind].
  set (mac := SHA1.hmac key (Spec.counter_bytes (now / time_step))).
  assert (Hlen : length mac = 20%nat) by apply hmac_length.
  assert (Hbytes : Forall is_byte mac) by apply hmac_bytes.
  rewrite (getitem_last mac Hlen). cbn [bind].
  set (offset := Z.land (nth 19 mac 0) 15).
  assert (Hoff : 0 <= offset < 16).
  { unfold offset. change 15 with (Z.ones 4). rewrite Z.land_ones by lia.
    apply Z.mod_pos_bound; lia. }
  rewrite !getitem_nth by (rewrite Hlen; lia). cbn [bind].
  rewrite pack_big_endian; try (apply nth_byte; exact Hbytes).
  2:{ change 127 with (Z.ones 7). rewrite Z.land_ones by lia.
      apply Z.mod_pos_bound; lia. }
  unfold ret. f_equal.
  rewrite zfill_str;
    [| exact Hdigits | apply Z.mod_pos_bound; apply Z.pow_pos_nonneg; lia].
  unfold Spec.truncate. fold offset.
  rewrite window4 by (rewrite Hlen; lia).
  rewrite !Z2Nat.inj_add by lia.
  reflexivity.
Qed.

Lemma generate_totp_fails
  (secret : string) (digits : nat) (time_step now : Z) :
  (exists e, base32_decode secret = inl e) \/ time_step = 0
  \/ now / time_step < 0 \/ 2 ^ 64 <= now / time_step ->
  generate_totp secret digits time_step now = "ERROR"%string.
Proof.
  intros H. unfold generate_totp, generate_totp_try.
  destruct (base32_decode secret) as [e|key]; [reflexivity|].
  cbn [bind]. unfold Py.floordiv.
  destruct (Z.eqb_spec time_step 0) as [Hz|Hz]; [reflexivity|].
  cbn [bind ret]. unfold Py.struct_pack_Q.
  destruct H as [[e He]|[H|H]]; [discriminate | contradiction |].
  replace ((0 <=? now / time_step) && (now / time_step <? 2 ^ 64)) with false;
    [reflexivity|].
  symmetry. apply andb_false_iff.
  destruct H; [left; apply Z.leb_gt | right; apply Z.ltb_ge]; lia.
Qed.

(** The code depends on the clock only through the counter. *)
Lemma generate_totp_by_counter
  (secret : string) (digits : nat) (time_step t1 t2 : Z) :
  t1 / time_step = t2 / time_step ->
  generate_totp secret digits time_step t1
  = generate_totp secret digits time_step t2.
Proof.
  intros H. unfold generate_totp, generate_totp_try, Py.floordiv.
  now rewrite H.
Qed.

Lemma generate_not_dashes (key : list Z) (digits : nat) (step t : Z) :
  Spec.generate key digits step t <> "------"%string.
Proof.
  unfold Spec.generate. intros Heq.
  apply (f_equal list_ascii_of_string) in Heq.
  rewrite list_ascii_of_string_of_list_ascii in Heq.
  pose proof (padded_decimal_digits digits
                (Spec.truncate (SHA1.hmac key (Spec.counter_bytes (t / step)))
                 mod 10 ^ Z.of_nat digits)) as Hd.
  rewrite Heq in Hd. discriminate Hd.
Qed.

(** A digit of [b mod 10 ^ D] below position [D] is the digit of [b]. *)
Lemma digit_of_mod (b : Z) (D j : nat) :
  (j < D)%nat ->
  ((b mod 10 ^ Z.of_nat D) / 10 ^ Z.of_nat j) mod 10
  = (b / 10 ^ Z.of_nat j) mod 10.
Proof.
  intros Hj.
  assert (Hp : 0 < 10 ^ Z.of_nat j) by (apply Z.pow_pos_nonneg; lia).
  assert (HD : 10 ^ Z.of_nat D
               = 10 ^ Z.of_nat j * (10 * 10 ^ Z.of_nat (D - j - 1))).
  { rewrite <- Z.pow_succ_r by lia. rewrite <- Z.pow_add_r by lia.
    f_equal. lia. }
  set (q := b / 10 ^ Z.of_nat D).
  assert (E : b mod 10 ^ Z.of_nat D
              = b + (- (10 * 10 ^ Z.of_nat (D - j - 1) * q))
                    * 10 ^ Z.of_nat j).
  { rewrite (Z.mod_eq b (10 ^ Z.of_nat D)) by lia. fold q.
    rewrite HD. ring. }
  rewrite E, Z.div_add by lia.
  replace (b / 10 ^ Z.of_nat j + - (10 * 10 ^ Z.of_nat (D - j - 1) * q))
    with (b / 10 ^ Z.of_nat j + (- (10 ^ Z.of_nat (D - j - 1) * q)) * 10)
    by ring.
  apply Z.mod_add. lia.
Qed.

Lemma padded_decimal_mod (d m : nat) (b : Z) :
  Spec.padded_decimal d (b mod 10 ^ Z.of_nat (d + m))
  = Spec.padded_decimal d b.
Proof.
  unfold Spec.padded_decimal. apply map_ext_in. intros i Hi.
  apply in_seq in Hi. f_equal. apply digit_of_mod. lia.
Qed.

Lemma padded_decimal_skipn (m d : nat) (n : Z) :
  skipn m (Spec.padded_decimal (m + d) n) = Spec.padded_decimal d n.
Proof.
  induction m as [|m IH]; [reflexivity|].
  cbn [Nat.add]. rewrite padded_decimal_head. cbn [skipn]. exact IH.
Qed.

End EngineMore.

(** X6: with at least one digit asked for, [generate_totp] ends in one of
    two ways.  It returns the text ERROR when the secret does not decode,
    when the step is zero, or when the counter [now // time_step] is
    negative or needs more than eight bytes; in every other case, a negative
    step included, it returns exactly [digits] decimal digits. *)
Theorem generate_totp_cases
  (secret : string) (digits : nat) (time_step now : Z) :
  (1 <= digits)%nat ->
  ((exists e, TOTPGenerator.base32_decode secret = inl e) \/ time_step = 0
   \/ now / time_step < 0 \/ 2 ^ 64 <= now / time_step ->
   TOTPGenerator.generate_totp secret digits time_step now = "ERROR"%string)
  /\ (~ ((exists e, TOTPGenerator.base32_decode secret = inl e)
         \/ time_step = 0
         \/ now / time_step < 0 \/ 2 ^ 64 <= now / time_step) ->
      String.length (TOTPGenerator.generate_totp secret digits time_step now)
      = digits
      /\ forallb is_digit
           (list_ascii_of_string
              (TOTPGenerator.generate_totp secret digits time_step now))
         = true
      /\ TOTPGenerator.generate_totp secret digits time_step now
         <> "ERROR"%string).
Proof.
  intros Hd. split; [apply generate_totp_fails|].
  intros Hok.
  destruct (TOTPGenerator.base32_decode secret) as [e|key] eqn:Hdec;
    [exfalso; apply Hok; left; now exists e|].
  assert (Hs : time_step <> 0) by (intros ->; apply Hok; right; now left).
  assert (Hc : 0 <= now / time_step < 2 ^ 64).
  { destruct (Z.lt_ge_cases (now / time_step) 0);
      [exfalso; apply Hok; right; right; now left|].
    destruct (Z.lt_ge_cases (now / time_step) (2 ^ 64));
      [lia | exfalso; apply Hok; right; right; now right]. }
  unfold TOTPGenerator.generate_totp.
  rewrite (generate_totp_try_run secret key digits time_step now Hdec Hd Hs Hc).
  split; [apply generate_length|]. split; [|apply generate_not_error].
  unfold Spec.generate. rewrite list_ascii_of_string_of_list_ascii.
  apply padded_decimal_digits.
Qed.

Lemma generate_totp_cases_witness :
  TOTPGenerator.generate_totp "MFRGG" 6 0 59 = "ERROR"%string
  /\ String.length (TOTPGenerator.generate_totp "MFRGG" 6 (-30) (-59)) = 6%nat.
Proof.
  destruct (generate_totp_cases "MFRGG" 6 0 59 ltac:(lia)) as [Hbad _].
  destruct (generate_totp_cases "MFRGG" 6 (-30) (-59) ltac:(lia)) as [_ Hgood].
  split.
  - apply Hbad. right; left; reflexivity.
  - apply Hgood. intros [[e He]|[H|[H|H]]];
      [vm_compute in He; discriminate He | discriminate H
       | vm_compute in H; discriminate H | vm_compute in H; apply H; reflexivity].
Defined.

(** X7: the countdown is honest.  While fewer seconds have passed than the
    ring shows, the code for the 30-second step is the one shown now; and
    when exactly that many seconds have passed, the counter is one more. *)
Theorem code_stable_while_counting_down
  (secret : string) (digits : nat) (now d : Z) :
  0 <= d < VerifierCard.seconds_left now ->
  TOTPGenerator.generate_totp secret digits 30 (now + d)
  = TOTPGenerator.generate_totp secret digits 30 now
  /\ (now + VerifierCard.seconds_left now) / 30 = now / 30 + 1.
Proof.
  unfold VerifierCard.seconds_left. intros Hd. split.
  - apply generate_totp_by_counter.
    Z.div_mod_to_equations. lia.
  - Z.div_mod_to_equations. lia.
Qed.

Lemma code_stable_while_counting_down_witness :
  TOTPGenerator.generate_totp "MFRGG" 6 30 (31 + 28)
  = TOTPGenerator.generate_totp "MFRGG" 6 30 31.
Proof.
  refine (proj1 (code_stable_while_counting_down "MFRGG" 6 31 28 _)).
  vm_compute. split; [intros H; discriminate H | reflexivity].
Defined.

(** X8: from one second to the next the number in the ring goes down by
    one, except from 1, after which it is 30 again. *)
Theorem seconds_left_tick (now : Z) :
  VerifierCard.seconds_left (now + 1)
  = if VerifierCard.seconds_left now =? 1 then 30
    else VerifierCard.seconds_left now - 1.
Proof.
  unfold VerifierCard.seconds_left.
  destruct (Z.eqb_spec (30 - now mod 30) 1) as [H|H];
    Z.div_mod_to_equations; lia.
Qed.

(** X9: a shorter code is the end of a longer one: for the same secret,
    step and time, the code of [d] digits is the last [d] characters of the
    code of [d'] digits whenever [d <= d']. *)
Theorem shorter_code_is_suffix
  (secret : string) (key : list Z) (d d' : nat) (time_step now : Z) :
  TOTPGenerator.base32_decode secret = inr key ->
  (1 <= d <= d')%nat -> time_step <> 0 ->
  0 <= now / time_step < 2 ^ 64 ->
  list_ascii_of_string (TOTPGenerator.generate_totp secret d time_step now)
  = skipn (d' - d)
      (list_ascii_of_string
         (TOTPGenerator.generate_totp secret d' time_step now)).
Proof.
  intros Hdec Hd Hs Hc. unfold TOTPGenerator.generate_totp.
  rewrite (generate_totp_try_run secret key d time_step now Hdec ltac:(lia) Hs Hc).
  rewrite (generate_totp_try_run secret key d' time_step now Hdec ltac:(lia) Hs Hc).
  unfold Spec.generate. rewrite !list_ascii_of_string_of_list_ascii.
  set (b := Spec.truncate
              (SHA1.hmac key (Spec.counter_bytes (now / time_step)))).
  replace (Z.of_nat d) with (Z.of_nat (d + 0)) at 1 by (f_equal; lia).
  replace (Z.of_nat d') with (Z.of_nat (d' + 0)) by (f_equal; lia).
  rewrite !padded_decimal_mod.
  replace d' with ((d' - d) + d)%nat at 2 by lia.
  now rewrite padded_decimal_skipn.
Qed.

Lemma shorter_code_is_suffix_witness :
  list_ascii_of_string
    (TOTPGenerator.generate_totp "GEZDGNBVGY3TQOJQGEZDGNBVGY3TQOJQ" 6 30 59)
  = skipn (8 - 6)
      (list_ascii_of_string
         (TOTPGenerator.generate_totp
            "GEZDGNBVGY3TQOJQGEZDGNBVGY3TQOJQ" 8 30 59)).
Proof.
  apply (shorter_code_is_suffix "GEZDGNBVGY3TQOJQGEZDGNBVGY3TQOJQ"
           (ascii_bytes "12345678901234567890") 6 8 30 59);
    [vm_compute; reflexivity | lia | lia
     | split; vm_compute; [discriminate | reflexivity]].
Defined.

(** ** The card: what reaches the clipboard *)

(** X10: [copy_code] never puts the texts ERROR or ------ on the clipboard.
    After [update_code], a card whose secret is not a text, or is a text
    that does not decode, leaves the clipboard alone and marks nothing;
    a card whose secret decodes puts its code of six decimal digits there. *)
Theorem copy_code_spec
  (works : bool) (c : Card.card) (clipboard : string) (t_code t_ring : Z) :
  let shown := Card.update_code t_code t_ring c in
  (snd (fst (Card.copy_code works c clipboard)) = clipboard
   \/ (snd (fst (Card.copy_code works c clipboard)) = Card.code_label c
       /\ Card.code_label c <> "ERROR"%string
       /\ Card.code_label c <> "------"%string))
  /\ ((forall s, Card.secret c = JStr s ->
               exists e, TOTPGenerator.base32_decode s = inl e) ->
      Card.copy_code works shown clipboard = (shown, clipboard, false))
  /\ (forall s key,
         Card.secret c = JStr s ->
         TOTPGenerator.base32_decode s = inr key ->
         0 <= t_code / 30 < 2 ^ 64 ->
         snd (fst (Card.copy_code true shown clipboard))
         = TOTPGenerator.generate_totp s 6 30 t_code
         /\ String.length (TOTPGenerator.generate_totp s 6 30 t_code) = 6%nat
         /\ forallb is_digit
              (list_ascii_of_string (TOTPGenerator.generate_totp s 6 30 t_code))
            = true).
Proof.
  cbv zeta. split; [|split].
  - unfold Card.copy_code.
    destruct (String.eqb_spec (Card.code_label c) "ERROR") as [He|He];
      [now left|].
    destruct (String.eqb_spec (Card.code_label c) "------") as [Hd|Hd];
      [now left|].
    destruct works; [right | left]; cbn [fst snd]; auto.
  - intros Hbad.
    assert (Hlabel : Card.code_label (Card.update_code t_code t_ring c)
                     = "ERROR"%string).
    { unfold Card.update_code, Card.generate_totp_default. cbn [Card.code_label].
      destruct (Card.secret c) as [| | |s| |];
        [reflexivity | reflexivity | reflexivity | | reflexivity | reflexivity].
      destruct (Hbad s eq_refl) as [e He].
      apply generate_totp_fails. left. now exists e. }
    unfold Card.copy_code. rewrite Hlabel. reflexivity.
  - intros s key Hs Hdec Hc.
    assert (Hgen : TOTPGenerator.generate_totp s 6 30 t_code
                   = Spec.generate key 6 30 t_code).
    { unfold TOTPGenerator.generate_totp.
      now rewrite (generate_totp_try_run s key 6 30 t_code Hdec
                     ltac:(lia) ltac:(lia) Hc). }
    assert (Hlabel : Card.code_label (Card.update_code t_code t_ring c)
                     = Spec.generate key 6 30 t_code).
    { unfold Card.update_code, Card.generate_totp_default. cbn [Card.code_label].
      rewrite Hs. exact Hgen. }
    split; [|split].
    + unfold Card.copy_code. rewrite Hlabel.
      destruct (String.eqb_spec (Spec.generate key 6 30 t_code) "ERROR")
        as [He|He]; [now apply generate_not_error in He|].
      destruct (String.eqb_spec (Spec.generate key 6 30 t_code) "------")
        as [Hd|Hd]; [now apply generate_not_dashes in Hd|].
      cbn [negb andb fst snd]. now rewrite Hgen.
    + rewrite Hgen. apply generate_length.
    + rewrite Hgen. unfold Spec.generate.
      rewrite list_ascii_of_string_of_list_ascii.
      apply padded_decimal_digits.
Qed.

Lemma copy_code_spec_witness :
  let c := Card.mkCard (JStr "mail") (JStr "MFRGG") 0 "------" 30 false in
  snd (fst (Card.copy_code true (Card.update_code 59 59 c) "old"))
  = TOTPGenerator.generate_totp "MFRGG" 6 30 59
  /\ Card.copy_code true
       (Card.update_code 59 59
          (Card.mkCard (JStr "x") (JStr "1") 1 "------" 30 false)) "old"
     = (Card.update_code 59 59
          (Card.mkCard (JStr "x") (JStr "1") 1 "------" 30 false),
        "old"%string, false).
Proof.
  cbv zeta. split.
  - refine (proj1 (proj2 (proj2 (copy_code_spec true
              (Card.mkCard (JStr "mail") (JStr "MFRGG") 0 "------" 30 false)
              "old" 59 59)) "MFRGG"%string [97; 98; 99; 0; 0] eq_refl _ _)).
    + vm_compute; reflexivity.
    + split; vm_compute; [discriminate | reflexivity].
  - apply (proj1 (proj2 (copy_code_spec true
              (Card.mkCard (JStr "x") (JStr "1") 1 "------" 30 false)
              "old" 59 59))).
    intros s Hs. injection Hs as <-. eexists. vm_compute. reflexivity.
Defined.

(** ** The reminder setting *)

(** X11: what [save_no_remind_setting] writes, [load_no_remind_setting]
    reads back; and the load never raises but answers False when there is no
    file, when the file does not parse (as after a write that failed), when
    it holds something other than an object, or an object without the
    key. *)
Theorem no_remind_round_trip (value : json) (config_file : file) :
  Config.load_no_remind_setting
    (Config.save_no_remind_setting value NoFault config_file) = value
  /\ Config.load_no_remind_setting
       (Config.save_no_remind_setting value WriteFails config_file)
     = JBool false
  /\ Config.load_no_remind_setting
       (Config.save_no_remind_setting value OpenFails config_file)
     = Config.load_no_remind_setting config_file
  /\ Config.load_no_remind_setting Missing = JBool false
  /\ Config.load_no_remind_setting Unparseable = JBool false
  /\ (forall d, (forall members, d <> JObj members) ->
                Config.load_no_remind_setting (Document d) = JBool false)
  /\ (forall members, lookup "no_remind" members = None ->
                      Config.load_no_remind_setting (Document (JObj members))
                      = JBool false).
Proof.
  repeat split.
  - intros d Hd. destruct d; try reflexivity. now destruct (Hd members).
  - intros members Hm. unfold Config.load_no_remind_setting, Config.dict_get.
    cbn [read_json bind ret]. now rewrite Hm.
Qed.

Lemma no_remind_round_trip_witness :
  Config.load_no_remind_setting (Document (JArr [JBool true])) = JBool false.
Proof.
  apply (proj1 (proj2 (proj2 (proj2 (proj2 (proj2
           (no_remind_round_trip JNull Missing))))))).
  intros members H; discriminate H.
Defined.

(** ** The hints in the entry fields *)

(** X12: gaining the focus never leaves the hint in a field and losing it
    never leaves the field empty; any other text is left as it is.  So a
    name or key typed exactly like the hint is wiped at the next focus, and
    [add_verifier] turns the untouched field down. *)
Theorem entry_hints (e : EntryField.entry_field) :
  EntryField.text (EntryField.on_name_focus_in e)
    <> TwoFactorAuthApp.name_placeholder
  /\ EntryField.text (EntryField.on_name_focus_out e) <> ""%string
  /\ EntryField.text (EntryField.on_key_focus_in e)
       <> TwoFactorAuthApp.key_placeholder
  /\ EntryField.text (EntryField.on_key_focus_out e) <> ""%string
  /\ (EntryField.text e <> ""%string ->
      EntryField.text e <> TwoFactorAuthApp.name_placeholder ->
      EntryField.on_name_focus_in e = e /\ EntryField.on_name_focus_out e = e)
  /\ (EntryField.text e <> ""%string ->
      EntryField.text e <> TwoFactorAuthApp.key_placeholder ->
      EntryField.on_key_focus_in e = e /\ EntryField.on_key_focus_out e = e)
  /\ (forall key_entry w,
         TwoFactorAuthApp.add_verifier
           (EntryField.text
              (EntryField.on_name_focus_out (EntryField.mkField "" "#1a1a1a")))
           key_entry w
         = TwoFactorAuthApp.emit
             (TwoFactorAuthApp.ShowWarning TwoFactorAuthApp.EnterName) w).
Proof.
  unfold EntryField.on_name_focus_in, EntryField.on_name_focus_out,
    EntryField.on_key_focus_in, EntryField.on_key_focus_out.
  destruct (String.eqb_spec (EntryField.text e)
              TwoFactorAuthApp.name_placeholder) as [Hn|Hn];
    destruct (String.eqb_spec (EntryField.text e) "") as [He|He];
    destruct (String.eqb_spec (EntryField.text e)
                TwoFactorAuthApp.key_placeholder) as [Hk|Hk];
    cbn [EntryField.text];
    repeat split; try assumption; try discriminate; try contradiction;
    try (rewrite He in *; discriminate).
Qed.

Lemma entry_hints_witness :
  let e := EntryField.mkField "GitHub" "#1a1a1a" in
  EntryField.on_name_focus_in e = e /\ EntryField.on_name_focus_out e = e.
Proof.
  cbv zeta.
  apply (proj1 (proj2 (proj2 (proj2 (proj2
           (entry_hints (EntryField.mkField "GitHub" "#1a1a1a")))))));
    intros H; vm_compute in H; discriminate H.
Defined.

(** ** The list of verifiers: what each handler leaves behind *)

Section StoreMore.

Import TwoFactorAuthApp.

Lemma same_store_refl (w : app) : same_store w w.
Proof. repeat split. Qed.

Lemma same_store_trans (w1 w2 w3 : app) :
  same_store w1 w2 -> same_store w2 w3 -> same_store w1 w3.
Proof.
  intros (A1 & A2 & A3) (B1 & B2 & B3).
  repeat split; congruence.
Qed.

Lemma ui_only_pure {A} (a : A) : ui_only (pure a).
Proof. intros w; apply same_store_refl. Qed.

Lemma ui_only_emit (e : event) : ui_only (emit e).
Proof. intros w; repeat split. Qed.

Lemma ui_only_update_stats : ui_only update_stats.
Proof. intros w; repeat split. Qed.

Lemma ui_only_render : ui_only render_verifiers.
Proof.
  intros w. unfold render_verifiers, andthen, get_verifiers, emit.
  destruct (build_cards (verifiers w) []) as [cards [e|]]; repeat split.
Qed.

Lemma ui_only_andthen {A B} (m : App A) (k : A -> App B) :
  ui_only m -> (forall a, ui_only (k a)) -> ui_only (andthen m k).
Proof.
  intros Hm Hk w. unfold andthen.
  pose proof (Hm w) as H1.
  destruct (m w) as [[e|a] w1]; cbn [snd] in *; [exact H1|].
  apply (same_store_trans _ _ _ H1), Hk.
Qed.

Lemma ui_only_try {A} (m : App A) (handler : exn -> App A) :
  ui_only m -> (forall e, ui_only (handler e)) -> ui_only (try_except m handler).
Proof.
  intros Hm Hh w. unfold try_except.
  pose proof (Hm w) as H1.
  destruct (m w) as [[e|a] w1]; cbn [snd] in *; [|exact H1].
  apply (same_store_trans _ _ _ H1), Hh.
Qed.

(** An error box in the [except] clause changes nothing in the store. *)
Lemma try_emit_store {A} (m : App A) (handler : exn -> App A) (w : app) :
  (forall e, ui_only (handler e)) ->
  same_store (snd (m w)) (snd (try_except m handler w)).
Proof.
  intros Hh. unfold try_except.
  destruct (m w) as [[e|a] w1]; cbn [snd]; [apply Hh | apply same_store_refl].
Qed.

(** [commit], by the state of the disk. *)
Lemma commit_cases (vs : list json) (last : App unit) (w : app) :
  commit vs last w
  = match disk w with
    | NoFault =>
      (_ <~ render_verifiers ;; last)
        (mkApp vs (Document (JArr vs)) NoFault (ui w))
    | OpenFails =>
      (inr tt,
       mkApp vs (data_file w) OpenFails
             (ui w ++ [ShowError (SaveFailed OSError)]))
    | WriteFails =>
      (inr tt,
       mkApp vs Unparseable WriteFails
             (ui w ++ [ShowError (SaveFailed OSError)]))
    end.
Proof. destruct w as [vs0 f d u]; destruct d; reflexivity. Qed.

(** The state [commit] ends in. *)
Lemma commit_state (vs : list json) (last : App unit) (w : app) :
  ui_only last ->
  let w' := snd (commit vs last w) in
  verifiers w' = vs
  /\ disk w' = disk w
  /\ data_file w' = written (disk w) vs (data_file w).
Proof.
  intros Hlast. cbv zeta. rewrite commit_cases.
  destruct (disk w) eqn:Hd; cbn [snd]; try (repeat split; reflexivity).
  pose proof (ui_only_andthen render_verifiers (fun _ => last)
                ui_only_render (fun _ => Hlast)
                (mkApp vs (Document (JArr vs)) NoFault (ui w)))
    as (H1 & H2 & H3).
  cbn [verifiers data_file disk] in *.
  rewrite H1, H2, H3. repeat split.
Qed.

(** What a card is built from exists exactly for the entries. *)
Lemma is_entry_fields (v : json) :
  if is_entry v
  then exists c, card_fields v = inr c
  else exists e, card_fields v = inl e.
Proof.
  unfold is_entry, card_fields, subscript.
  destruct v; try (now exists TypeError).
  destruct (lookup "name" members) as [n|];
    destruct (lookup "key" members) as [k|]; cbn [bind ret raise];
    eauto.
Qed.

Lemma build_cards_step (v : json) (vs : list json)
  (cards : list (json * json)) :
  build_cards (v :: vs) cards
  = match card_fields v with
    | inl e => (cards, Some e)
    | inr card => build_cards vs (cards ++ [card])
    end.
Proof. reflexivity. Qed.

(** The loop ends without an exception exactly on entries; it stops at the
    first verifier that is not one, with the cards of those before it. *)
Lemma render_loop (vs : list json) :
  forall acc : list (json * json),
    (forallb is_entry vs = true ->
     exists cards,
       Forall2 (fun v c => card_fields v = inr c) vs cards
       /\ build_cards vs acc = (acc ++ cards, None))
    /\ (forallb is_entry vs = false ->
        exists (e : exn) (before rest : list json) (bad : json)
               (cards : list (json * json)),
          vs = before ++ bad :: rest
          /\ forallb is_entry before = true
          /\ is_entry bad = false
          /\ Forall2 (fun v c => card_fields v = inr c) before cards
          /\ build_cards vs acc = (acc ++ cards, Some e)).
Proof.
  induction vs as [|v vs IH]; intros acc.
  - split; [|discriminate]. intros _. exists []. split; [constructor|].
    cbn. now rewrite app_nil_r.
  - rewrite build_cards_step. cbn [forallb].
    pose proof (is_entry_fields v) as Hv.
    destruct (is_entry v) eqn:Hentry; cbn [andb].
    + destruct Hv as [c Hc]. rewrite Hc.
      destruct (IH (acc ++ [c])) as [Hok Hbad].
      split.
      * intros Hall. destruct (Hok Hall) as (cards & HF & Hrun).
        exists (c :: cards). split; [now constructor|].
        rewrite Hrun. now rewrite <- app_assoc.
      * intros Hsome.
        destruct (Hbad Hsome)
          as (e & before & rest & bad & cards & -> & Hb & Hx & HF & Hrun).
        exists e, (v :: before), rest, bad, (c :: cards).
        split; [reflexivity|]. split; [cbn [forallb]; now rewrite Hentry|].
        split; [exact Hx|]. split; [now constructor|].
        rewrite Hrun. now rewrite <- app_assoc.
    + split; [discriminate|]. intros _.
      destruct Hv as [e Hc]. rewrite Hc.
      exists e, [], vs, v, [].
      repeat split; try assumption; [constructor | now rewrite app_nil_r].
Qed.

Lemma render_entries (w : app) :
  forallb is_entry (verifiers w) = true ->
  exists cards,
    Forall2 (fun v c => card_fields v = inr c) (verifiers w) cards
    /\ render_verifiers w
       = (inr tt,
          mkApp (verifiers w) (data_file w) (disk w) (ui w ++ [Render cards])).
Proof.
  intros Hall.
  destruct (proj1 (render_loop (verifiers w) []) Hall) as (cards & HF & Hrun).
  exists cards. split; [exact HF|].
  unfold render_verifiers, andthen, get_verifiers.
  rewrite Hrun. reflexivity.
Qed.

(** On a list with a verifier that is not an entry the redraw raises, with
    the cards of the verifiers before the first such one on the screen. *)
Lemma render_non_entry (w : app) :
  forallb is_entry (verifiers w) = false ->
  exists (e : exn) (before rest : list json) (bad : json)
         (cards : list (json * json)),
    verifiers w = before ++ bad :: rest
    /\ forallb is_entry before = true
    /\ is_entry bad = false
    /\ Forall2 (fun v c => card_fields v = inr c) before cards
    /\ render_verifiers w
       = (inl e,
          mkApp (verifiers w) (data_file w) (disk w) (ui w ++ [Render cards])).
Proof.
  intros Hbad.
  destruct (proj2 (render_loop (verifiers w) []) Hbad)
    as (e & before & rest & bad & cards & Hvs & Hb & Hx & HF & Hrun).
  exists e, before, rest, bad, cards.
  repeat split; try assumption.
  unfold render_verifiers, andthen, get_verifiers.
  rewrite Hrun. reflexivity.
Qed.

Lemma find_entries (items : list json) :
  forallb is_entry items = true ->
  find (fun item => negb (is_entry item)) items = None.
Proof.
  induction items as [|x items IH]; [reflexivity|].
  cbn [forallb find]. intros H. apply andb_prop in H. destruct H as [Hx Hl].
  rewrite Hx. cbn [negb]. now apply IH.
Qed.

Lemma untouched_of_same_store (w w' : app) :
  same_store w w' -> saved_or_untouched w w'.
Proof. intros (H1 & H2 & H3). split; [exact H3 | left; now split]. Qed.

Lemma commit_saved (vs : list json) (last : App unit) (w : app) :
  ui_only last -> saved_or_untouched w (snd (commit vs last w)).
Proof.
  intros Hlast. destruct (commit_state vs last w Hlast) as (H1 & H2 & H3).
  split; [exact H2 | right]. now rewrite H1, H3.
Qed.

Lemma ui_only_stats_then (e : event) :
  ui_only (_ <~ update_stats ;; emit e).
Proof.
  apply ui_only_andthen; [apply ui_only_update_stats|].
  intros _; apply ui_only_emit.
Qed.

(** [add_verifier] with entries that pass its three checks is a [commit]. *)
Lemma add_verifier_commit (name_entry key_entry : string) (bytes : list Z)
  (w : app) :
  Py.strip name_entry <> ""%string ->
  Py.strip name_entry <> name_placeholder ->
  Py.strip key_entry <> ""%string ->
  Py.strip key_entry <> key_placeholder ->
  TOTPGenerator.base32_decode (Py.strip key_entry) = inr bytes ->
  add_verifier name_entry key_entry w
  = commit (verifiers w ++ [entry (Py.strip name_entry) (Py.strip key_entry)])
           (_ <~ update_stats ;; emit ResetEntries) w.
Proof.
  intros Hn1 Hn2 Hk1 Hk2 Hdec. unfold add_verifier.
  apply String.eqb_neq in Hn1, Hn2, Hk1, Hk2.
  rewrite Hn1, Hn2, Hk1, Hk2, Hdec. reflexivity.
Qed.

(** Any other entries end in one warning or error box and nothing else. *)
Lemma add_verifier_rejected (name_entry key_entry : string) (w : app) :
  Py.strip name_entry = ""%string
  \/ Py.strip name_entry = name_placeholder
  \/ Py.strip key_entry = ""%string
  \/ Py.strip key_entry = key_placeholder
  \/ (exists e, TOTPGenerator.base32_decode (Py.strip key_entry) = inl e) ->
  exists m : event,
    is_alert m = true /\ add_verifier name_entry key_entry w = emit m w.
Proof.
  intros Hbad. unfold add_verifier.
  destruct (String.eqb_spec (Py.strip name_entry) "") as [Hn1|Hn1];
    [eexists; split; [|reflexivity]; reflexivity|].
  destruct (String.eqb_spec (Py.strip name_entry) name_placeholder)
    as [Hn2|Hn2]; [eexists; split; [|reflexivity]; reflexivity|].
  cbn [orb].
  destruct (String.eqb_spec (Py.strip key_entry) "") as [Hk1|Hk1];
    [eexists; split; [|reflexivity]; reflexivity|].
  destruct (String.eqb_spec (Py.strip key_entry) key_placeholder)
    as [Hk2|Hk2]; [eexists; split; [|reflexivity]; reflexivity|].
  cbn [orb].
  destruct Hbad as [H|[H|[H|[H|[e He]]]]]; try contradiction.
  rewrite He. eexists; split; [|reflexivity]; reflexivity.
Qed.

Lemma delete_verifier_commit (w : app) (index : Z) :
  0 <= index < Z.of_nat (length (verifiers w)) ->
  delete_verifier index w
  = commit (firstn (Z.to_nat index) (verifiers w)
              ++ skipn (S (Z.to_nat index)) (verifiers w))
           update_stats w.
Proof. intros Hin. now rewrite delete_verifier_run. Qed.

Lemma add_verifier_saved (name_entry key_entry : string) (w : app) :
  saved_or_untouched w (snd (add_verifier name_entry key_entry w)).
Proof.
  unfold add_verifier.
  destruct (_ || _)%bool;
    [apply untouched_of_same_store, ui_only_emit|].
  destruct (_ || _)%bool;
    [apply untouched_of_same_store, ui_only_emit|].
  destruct (TOTPGenerator.base32_decode (Py.strip key_entry));
    [apply untouched_of_same_store, ui_only_emit|].
  apply (commit_saved _ (_ <~ update_stats ;; emit ResetEntries)),
    ui_only_stats_then.
Qed.

Lemma delete_verifier_saved (index : Z) (w : app) :
  saved_or_untouched w (snd (delete_verifier index w)).
Proof.
  destruct (Z.lt_ge_cases index 0) as [Hneg|Hpos];
    [rewrite delete_verifier_ignored by (left; exact Hneg);
     apply untouched_of_same_store, same_store_refl|].
  destruct (Z.lt_ge_cases index (Z.of_nat (length (verifiers w))))
    as [Hin|Hout];
    [|rewrite delete_verifier_ignored by (right; exact Hout);
      apply untouched_of_same_store, same_store_refl].
  rewrite delete_verifier_commit by lia.
  apply commit_saved, ui_only_update_stats.
Qed.

Lemma clear_all_saved (confirm : bool) (w : app) :
  saved_or_untouched w (snd (clear_all confirm w)).
Proof.
  unfold clear_all. unfold andthen at 1. unfold get_verifiers at 1.
  destruct (verifiers w) as [|v vs];
    [apply untouched_of_same_store, ui_only_emit|].
  destruct confirm; [|apply untouched_of_same_store, same_store_refl].
  apply (commit_saved [] (_ <~ update_stats ;; emit (ShowInfo Cleared))),
    ui_only_stats_then.
Qed.

Lemma saved_then_same_store (w w1 w2 : app) :
  saved_or_untouched w w1 -> same_store w1 w2 -> saved_or_untouched w w2.
Proof.
  intros [Hd Hcase] (H1 & H2 & H3). split; [congruence|].
  destruct Hcase as [[Hv Hf]|Hf]; [left; split; congruence|].
  right. rewrite H1, H2. exact Hf.
Qed.

Lemma import_data_saved (picked : option file) (confirm : bool) (w : app) :
  saved_or_untouched w (snd (import_data picked confirm w)).
Proof.
  unfold import_data.
  destruct picked as [f|]; [|apply untouched_of_same_store, same_store_refl].
  eapply saved_then_same_store;
    [|apply try_emit_store; intros e; apply ui_only_emit].
  unfold andthen at 1. unfold lift.
  destruct (read_json f) as [e|v]; cbn [snd];
    [apply untouched_of_same_store, same_store_refl|].
  destruct v; try (apply untouched_of_same_store, ui_only_emit).
  destruct (find _ items);
    [apply untouched_of_same_store, ui_only_emit|].
  destruct confirm; [|apply untouched_of_same_store, same_store_refl].
  apply (commit_saved items (_ <~ update_stats ;; emit (ShowInfo Imported))),
    ui_only_stats_then.
Qed.

(** Every action either leaves list and file alone or saves the new list. *)
Lemma perform_saved (a : action) (w : app) :
  saved_or_untouched w (snd (perform a w)).
Proof.
  destruct a as [n k|c confirm|picked confirm|confirm]; cbn [perform].
  - apply add_verifier_saved.
  - unfold Card.delete. destruct confirm;
      [apply delete_verifier_saved
      | apply untouched_of_same_store, same_store_refl].
  - apply import_data_saved.
  - apply clear_all_saved.
Qed.

Lemma run_disk (actions : list action) (w : app) :
  disk (run actions w) = disk w.
Proof.
  revert w; induction actions as [|a rest IH]; intros w; [reflexivity|].
  cbn [run]. rewrite IH. apply perform_saved.
Qed.

End StoreMore.

Section StoreProperties.

Import TwoFactorAuthApp.

Lemma load_verifiers_document (w : app) (v : json) :
  data_file w = Document v -> fst (load_verifiers w) = inr v.
Proof. destruct w as [vs f d u]. cbn [data_file]. intros ->. reflexivity. Qed.

Lemma import_data_entries (items : list json) (w : app) :
  forallb is_entry items = true ->
  import_data (Some (Document (JArr items))) true w
  = try_except
      (commit items (_ <~ update_stats ;; emit (ShowInfo Imported)))
      (fun e => emit (ShowError (ImportFailed e))) w
  /\ import_data (Some (Document (JArr items))) false w = (inr tt, w).
Proof.
  intros Hall. unfold import_data, try_except.
  split; unfold andthen at 1; unfold lift; cbn [read_json ret];
    rewrite (find_entries items Hall); reflexivity.
Qed.

Lemma commit_entries (vs : list json) (e : event) (w : app) :
  forallb is_entry vs = true -> disk w = NoFault ->
  exists cards,
    Forall2 (fun v c => card_fields v = inr c) vs cards
    /\ commit vs (_ <~ update_stats ;; emit e) w
       = (inr tt,
          mkApp vs (Document (JArr vs)) NoFault
                (ui w ++ [Render cards; UpdateStats (length vs); e])).
Proof.
  intros Hall Hd. rewrite commit_cases, Hd.
  destruct (render_entries (mkApp vs (Document (JArr vs)) NoFault (ui w)) Hall)
    as (cards & HF & Hrun).
  cbn [verifiers data_file disk ui] in HF, Hrun.
  exists cards. split; [exact HF|].
  unfold andthen at 1. rewrite Hrun.
  cbv [andthen update_stats get_verifiers emit].
  cbn [verifiers data_file disk ui fst snd].
  rewrite <- !app_assoc. reflexivity.
Qed.

(** A save that returns True had a disk that took the write. *)
Lemma saved_disk (w : app) :
  fst (save_verifiers w) = inr true -> disk w = NoFault.
Proof.
  rewrite save_verifiers_cases.
  destruct (disk w); cbn [fst]; [reflexivity | discriminate | discriminate].
Qed.

Lemma import_data_confirmed (items : list json) (w : app) :
  forallb is_entry items = true -> disk w = NoFault ->
  exists cards,
    Forall2 (fun v c => card_fields v = inr c) items cards
    /\ import_data (Some (Document (JArr items))) true w
       = (inr tt,
          mkApp items (Document (JArr items)) NoFault
                (ui w ++ [Render cards; UpdateStats (length items);
                          ShowInfo Imported])).
Proof.
  intros Hall Hd.
  destruct (import_data_entries items w Hall) as [Hyes _].
  destruct (commit_entries items (ShowInfo Imported) w Hall Hd)
    as (cards & HF & Hrun).
  exists cards. split; [exact HF|].
  rewrite Hyes. unfold try_except. rewrite Hrun. reflexivity.
Qed.

(** *** What the user is told about a save *)

Lemma ui_grows_emit (e : event) : ui_grows (emit e).
Proof. intros w; split; [repeat split | now exists [e]]. Qed.

Lemma ui_grows_update_stats : ui_grows update_stats.
Proof. intros w; split; [repeat split | now eexists]. Qed.

Lemma ui_grows_render : ui_grows render_verifiers.
Proof.
  intros w. unfold render_verifiers, andthen, get_verifiers, emit.
  destruct (build_cards (verifiers w) []) as [cards [e|]]; cbn [snd ui];
    (split; [repeat split | now eexists]).
Qed.

Lemma ui_grows_andthen {A B} (m : App A) (k : A -> App B) :
  ui_grows m -> (forall a, ui_grows (k a)) -> ui_grows (andthen m k).
Proof.
  intros Hm Hk w. unfold andthen.
  pose proof (Hm w) as [H1 [evs1 E1]].
  destruct (m w) as [[e|a] w1]; cbn [snd] in *;
    [split; [exact H1 | now exists evs1]|].
  destruct (Hk a w1) as [H2 [evs2 E2]].
  split; [apply (same_store_trans _ _ _ H1 H2)|].
  exists (evs1 ++ evs2). now rewrite E2, E1, app_assoc.
Qed.

Lemma ui_grows_stats_then (e : event) :
  ui_grows (_ <~ update_stats ;; emit e).
Proof.
  apply ui_grows_andthen; [apply ui_grows_update_stats|].
  intros _; apply ui_grows_emit.
Qed.

Lemma tracked_of_grows (w w' : app) :
  same_store w w' -> (exists evs, ui w' = ui w ++ evs) -> tracked w w'.
Proof.
  intros (H1 & H2 & _) [evs E]. exists evs.
  split; [exact E | left; now split].
Qed.

Lemma tracked_refl (w : app) : tracked w w.
Proof.
  apply tracked_of_grows; [apply same_store_refl|].
  exists []. now rewrite app_nil_r.
Qed.

Lemma tracked_emit (e : event) (w : app) : tracked w (snd (emit e w)).
Proof. apply tracked_of_grows; apply ui_grows_emit. Qed.

Lemma tracked_trans (w w1 w2 : app) :
  tracked w w1 -> tracked w1 w2 -> tracked w w2.
Proof.
  intros (evs1 & E1 & C1) (evs2 & E2 & C2).
  exists (evs1 ++ evs2). split; [now rewrite E2, E1, app_assoc|].
  rewrite existsb_app.
  destruct C2 as [[Hv Hf]|[Hf|Hx]].
  - destruct C1 as [[Hv1 Hf1]|[Hf1|Hx1]].
    + left; split; congruence.
    + right; left; congruence.
    + right; right. now rewrite Hx1.
  - right; left; exact Hf.
  - right; right. rewrite Hx. apply orb_true_r.
Qed.

(** [commit] leaves the file holding the new list, or shows the box of a
    failed save. *)
Lemma commit_tracked (vs : list json) (last : App unit) (w : app) :
  ui_grows last -> tracked w (snd (commit vs last w)).
Proof.
  intros Hlast. rewrite commit_cases.
  destruct (disk w); cbn [snd].
  - destruct (ui_grows_andthen render_verifiers (fun _ => last)
                ui_grows_render (fun _ => Hlast)
                (mkApp vs (Document (JArr vs)) NoFault (ui w)))
      as [(H1 & H2 & _) [evs E]].
    cbn [verifiers data_file ui] in *.
    exists evs. split; [exact E | right; left; congruence].
  - eexists. split; [reflexivity | right; right; reflexivity].
  - eexists. split; [reflexivity | right; right; reflexivity].
Qed.

Lemma add_verifier_tracked (name_entry key_entry : string) (w : app) :
  tracked w (snd (add_verifier name_entry key_entry w)).
Proof.
  unfold add_verifier.
  destruct (_ || _)%bool; [apply tracked_emit|].
  destruct (_ || _)%bool; [apply tracked_emit|].
  destruct (TOTPGenerator.base32_decode (Py.strip key_entry));
    [apply tracked_emit|].
  apply (commit_tracked _ (_ <~ update_stats ;; emit ResetEntries)),
    ui_grows_stats_then.
Qed.

Lemma delete_verifier_tracked (index : Z) (w : app) :
  tracked w (snd (delete_verifier index w)).
Proof.
  destruct (Z.lt_ge_cases index 0) as [Hneg|Hpos];
    [rewrite delete_verifier_ignored by (left; exact Hneg);
     apply tracked_refl|].
  destruct (Z.lt_ge_cases index (Z.of_nat (length (verifiers w))))
    as [Hin|Hout];
    [|rewrite delete_verifier_ignored by (right; exact Hout);
      apply tracked_refl].
  rewrite delete_verifier_commit by lia.
  apply commit_tracked, ui_grows_update_stats.
Qed.

Lemma clear_all_tracked (confirm : bool) (w : app) :
  tracked w (snd (clear_all confirm w)).
Proof.
  unfold clear_all. unfold andthen at 1. unfold get_verifiers at 1.
  destruct (verifiers w) as [|v vs]; [apply tracked_emit|].
  destruct confirm; [|apply tracked_refl].
  apply (commit_tracked [] (_ <~ update_stats ;; emit (ShowInfo Cleared))),
    ui_grows_stats_then.
Qed.

Lemma try_emit_tracked {A} (m : App A) (handler : exn -> App A) (w : app) :
  (forall e, ui_grows (handler e)) ->
  tracked (snd (m w)) (snd (try_except m handler w)).
Proof.
  intros Hh. unfold try_except.
  destruct (m w) as [[e|a] w1]; cbn [snd];
    [apply tracked_of_grows; apply Hh | apply tracked_refl].
Qed.

Lemma import_data_tracked (picked : option file) (confirm : bool) (w : app) :
  tracked w (snd (import_data picked confirm w)).
Proof.
  unfold import_data.
  destruct picked as [f|]; [|apply tracked_refl].
  eapply tracked_trans;
    [|apply try_emit_tracked; intros e; apply ui_grows_emit].
  unfold andthen at 1. unfold lift.
  destruct (read_json f) as [e|v]; cbn [snd]; [apply tracked_refl|].
  destruct v; try apply tracked_emit.
  destruct (find _ items); [apply tracked_emit|].
  destruct confirm; [|apply tracked_refl].
  apply (commit_tracked items (_ <~ update_stats ;; emit (ShowInfo Imported))),
    ui_grows_stats_then.
Qed.

Lemma perform_tracked (a : action) (w : app) :
  tracked w (snd (perform a w)).
Proof.
  destruct a as [n k|c confirm|picked confirm|confirm]; cbn [perform].
  - apply add_verifier_tracked.
  - unfold Card.delete. destruct confirm;
      [apply delete_verifier_tracked | apply tracked_refl].
  - apply import_data_tracked.
  - apply clear_all_tracked.
Qed.

Lemma run_tracked (actions : list action) (w : app) :
  tracked w (run actions w).
Proof.
  revert w; induction actions as [|a rest IH]; intros w;
    [apply tracked_refl|].
  cbn [run]. exact (tracked_trans _ _ _ (perform_tracked a w) (IH _)).
Qed.

(** X13: as long as no save ends in its error box, the data file holds
    exactly the list in memory: whatever the user does -- add, delete on a
    card, import, clear, confirmed or not, accepted or not -- if file and
    list agreed before and none of the actions showed the box of a failed
    save, they agree after, and a load returns the list. *)
Theorem file_mirrors_list (actions : list action) (w : app) :
  mirrored w ->
  existsb is_save_failed (shown_since w (run actions w)) = false ->
  mirrored (run actions w)
  /\ fst (load_verifiers (run actions w))
     = inr (JArr (verifiers (run actions w))).
Proof.
  intros Hm Hquiet.
  assert (Hrun : mirrored (run actions w)).
  { destruct (run_tracked actions w) as (evs & E & Hcase).
    unfold shown_since in Hquiet. rewrite E in Hquiet.
    rewrite skipn_app, skipn_all, Nat.sub_diag in Hquiet.
    cbn [skipn List.app] in Hquiet.
    unfold mirrored in *.
    destruct Hcase as [[Hv Hf]|[Hf|Hx]]; congruence. }
  split; [exact Hrun | apply load_verifiers_document, Hrun].
Qed.

Lemma file_mirrors_list_witness :
  let w := mkApp [entry "mail" "MFRGG"]
                 (Document (JArr [entry "mail" "MFRGG"])) NoFault [] in
  let actions :=
    [Add "shop" "ME"; Clear false; Import (Some Unparseable) true;
     Delete (Card.mkCard (JStr "mail") (JStr "MFRGG") 0 "------" 30 false)
            true] in
  mirrored (run actions w).
Proof.
  cbv zeta. apply file_mirrors_list; reflexivity.
Defined.

(** X14: a disk that refuses to open the data file keeps it as it was, and
    one that fails while writing leaves it as it was or unparseable,
    whatever the user does; no action ever replaces the file by another
    list without a successful save. *)
Theorem refused_writes_keep_file (actions : list action) (w : app) :
  (disk w = OpenFails -> data_file (run actions w) = data_file w)
  /\ (disk w = WriteFails ->
      data_file (run actions w) = data_file w
      \/ data_file (run actions w) = Unparseable).
Proof.
  split; intros Hd.
  - revert w Hd. induction actions as [|a rest IH]; intros w Hd;
      [reflexivity|].
    cbn [run]. destruct (perform_saved a w) as [Hd' Hcase].
    rewrite IH by congruence.
    destruct Hcase as [[_ Hf]|Hf]; [exact Hf|]. rewrite Hf, Hd. reflexivity.
  - revert w Hd. induction actions as [|a rest IH]; intros w Hd;
      [now left|].
    cbn [run]. destruct (perform_saved a w) as [Hd' Hcase].
    destruct (IH (snd (perform a w)) ltac:(congruence)) as [H|H];
      [|now right].
    rewrite H.
    destruct Hcase as [[_ Hf]|Hf]; [now left|].
    right. rewrite Hf, Hd. reflexivity.
Qed.

Lemma refused_writes_keep_file_witness :
  let w := mkApp [] (Document (JArr [])) OpenFails [] in
  data_file (run [Add "shop" "ME"; Clear true] w) = Document (JArr []).
Proof.
  cbv zeta.
  apply (proj1 (refused_writes_keep_file [Add "shop" "ME"; Clear true]
                  (mkApp [] (Document (JArr [])) OpenFails []))).
  reflexivity.
Defined.

(** X15: as long as nothing is imported, every stored key decodes:
    adding, deleting and clearing, in any order, keep a list of decodable
    verifiers decodable. *)
Theorem decodable_without_import (actions : list action) (w : app) :
  forallb (fun a => negb (is_import a)) actions = true ->
  forallb decodable (verifiers w) = true ->
  forallb decodable (verifiers (run actions w)) = true.
Proof.
  revert w. induction actions as [|a rest IH]; intros w Hno Hinv;
    [exact Hinv|].
  cbn [forallb] in Hno. apply andb_prop in Hno. destruct Hno as [Ha Hrest].
  cbn [run]. apply IH; [exact Hrest|].
  destruct a as [n k|c confirm|picked confirm|confirm]; cbn [perform].
  - now apply add_verifier_keeps_decodable.
  - unfold Card.delete. destruct confirm;
      [now apply delete_verifier_keeps_decodable | exact Hinv].
  - discriminate Ha.
  - now apply clear_all_keeps_decodable.
Qed.

Lemma decodable_without_import_witness :
  forallb decodable
    (verifiers (run [Add "shop" "ME"; Add "x" "1"; Clear false]
                    (mkApp [entry "mail" "MFRGG"] Missing NoFault [])))
  = true.
Proof.
  apply decodable_without_import; vm_compute; reflexivity.
Defined.

(** X16: [add_verifier] with a name and a key that pass its checks puts
    the record, both texts stripped of surrounding white space, at the end
    of the list and saves.  The list grows whether or not the save goes
    through: when the disk refuses the write the record is in memory only,
    and a load of the data file does not return it. *)
Theorem add_verifier_appends
  (name_entry key_entry : string) (bytes : list Z) (w : app) :
  Py.strip name_entry <> ""%string ->
  Py.strip name_entry <> name_placeholder ->
  Py.strip key_entry <> ""%string ->
  Py.strip key_entry <> key_placeholder ->
  TOTPGenerator.base32_decode (Py.strip key_entry) = inr bytes ->
  let added := entry (Py.strip name_entry) (Py.strip key_entry) in
  let w' := snd (add_verifier name_entry key_entry w) in
  verifiers w' = verifiers w ++ [added]
  /\ data_file w' = written (disk w) (verifiers w ++ [added]) (data_file w)
  /\ (disk w = OpenFails -> mirrored w ->
      fst (load_verifiers w') = inr (JArr (verifiers w))).
Proof.
  intros Hn1 Hn2 Hk1 Hk2 Hdec. cbv zeta.
  rewrite (add_verifier_commit _ _ bytes w Hn1 Hn2 Hk1 Hk2 Hdec).
  destruct (commit_state
              (verifiers w ++ [entry (Py.strip name_entry) (Py.strip key_entry)])
              (_ <~ update_stats ;; emit ResetEntries) w
              (ui_only_stats_then ResetEntries)) as (H1 & H2 & H3).
  split; [exact H1|]. split; [exact H3|].
  intros Hd Hm. apply load_verifiers_document.
  rewrite H3, Hd. exact Hm.
Qed.

Lemma add_verifier_appends_witness :
  verifiers (snd (add_verifier "  shop " " ME" (mkApp [] Missing NoFault [])))
  = [] ++ [entry "shop" "ME"].
Proof.
  apply (add_verifier_appends "  shop " " ME" [97; 0; 0; 0; 0]
           (mkApp [] Missing NoFault []));
    try (vm_compute; reflexivity); vm_compute; intros H; discriminate H.
Defined.

(** X17: [add_verifier] turns down an empty or all-blank name or key, the
    hint texts of the two fields, and a key that does not decode: it shows
    one warning or error box and changes neither the list nor the file. *)
Theorem add_verifier_rejects (name_entry key_entry : string) (w : app) :
  Py.strip name_entry = ""%string
  \/ Py.strip name_entry = name_placeholder
  \/ Py.strip key_entry = ""%string
  \/ Py.strip key_entry = key_placeholder
  \/ (exists e, TOTPGenerator.base32_decode (Py.strip key_entry) = inl e) ->
  exists m : event,
    is_alert m = true
    /\ add_verifier name_entry key_entry w
       = (inr tt,
          mkApp (verifiers w) (data_file w) (disk w) (ui w ++ [m])).
Proof.
  intros Hbad.
  destruct (add_verifier_rejected name_entry key_entry w Hbad) as (m & Hm & E).
  exists m. split; [exact Hm|]. rewrite E. reflexivity.
Qed.

Lemma add_verifier_rejects_witness :
  exists m : event,
    is_alert m = true
    /\ add_verifier "   " "MFRGG" (mkApp [] Missing NoFault [])
       = (inr tt, mkApp [] Missing NoFault ([] ++ [m])).
Proof.
  apply (add_verifier_rejects "   " "MFRGG" (mkApp [] Missing NoFault [])).
  left. vm_compute. reflexivity.
Defined.

(** X18: deleting the last position right after a successful add gives the
    list back as it was, and with a working disk the file too. *)
Theorem add_then_delete_last
  (name_entry key_entry : string) (bytes : list Z) (w : app) :
  Py.strip name_entry <> ""%string ->
  Py.strip name_entry <> name_placeholder ->
  Py.strip key_entry <> ""%string ->
  Py.strip key_entry <> key_placeholder ->
  TOTPGenerator.base32_decode (Py.strip key_entry) = inr bytes ->
  let w1 := snd (add_verifier name_entry key_entry w) in
  let w2 := snd (delete_verifier (Z.of_nat (length (verifiers w))) w1) in
  verifiers w2 = verifiers w
  /\ (disk w = NoFault -> data_file w2 = Document (JArr (verifiers w))).
Proof.
  intros Hn1 Hn2 Hk1 Hk2 Hdec. cbv zeta.
  rewrite (add_verifier_commit _ _ bytes w Hn1 Hn2 Hk1 Hk2 Hdec).
  set (added := entry (Py.strip name_entry) (Py.strip key_entry)).
  destruct (commit_state (verifiers w ++ [added])
              (_ <~ update_stats ;; emit ResetEntries) w
              (ui_only_stats_then ResetEntries)) as (H1 & H2 & H3).
  set (w1 := snd (commit (verifiers w ++ [added])
                    (_ <~ update_stats ;; emit ResetEntries) w)) in *.
  assert (Hin : 0 <= Z.of_nat (length (verifiers w))
                < Z.of_nat (length (verifiers w1))).
  { rewrite H1, length_app. cbn [length]. lia. }
  rewrite (delete_verifier_commit w1 _ Hin).
  match goal with |- context [commit ?l ?k w1] =>
    destruct (commit_state l k w1 ui_only_update_stats) as (G1 & G2 & G3);
    assert (Hl : l = verifiers w)
  end.
  { rewrite H1, Nat2Z.id.
    rewrite firstn_app, Nat.sub_diag, firstn_all, firstn_O, app_nil_r.
    rewrite skipn_all2 by (rewrite length_app; cbn [length]; lia).
    apply app_nil_r. }
  rewrite Hl in *. split; [exact G1|].
  intros Hd. rewrite G3, H2, Hd. reflexivity.
Qed.

Lemma add_then_delete_last_witness :
  let w := mkApp [entry "mail" "MFRGG"] Missing NoFault [] in
  verifiers (snd (delete_verifier 1 (snd (add_verifier "shop" "ME" w))))
  = [entry "mail" "MFRGG"].
Proof.
  cbv zeta.
  apply (add_then_delete_last "shop" "ME" [97; 0; 0; 0; 0]
           (mkApp [entry "mail" "MFRGG"] Missing NoFault []));
    try (vm_compute; reflexivity); vm_compute; intros H; discriminate H.
Defined.

(** X19: [render_verifiers] runs to its end, with one card per verifier on
    the screen, in order, made from its name and key, exactly when every
    verifier is an object with both fields -- the shape [import_data]
    checks for.  Otherwise it raises at the first verifier that is not, and
    the screen is left with the cards of the verifiers before that one
    only; list and file stay as they are. *)
Theorem render_verifiers_spec (w : app) :
  (forallb is_entry (verifiers w) = true ->
   exists cards,
     Forall2 (fun v c => card_fields v = inr c) (verifiers w) cards
     /\ render_verifiers w
        = (inr tt,
           mkApp (verifiers w) (data_file w) (disk w)
                 (ui w ++ [Render cards])))
  /\ (forallb is_entry (verifiers w) = false ->
      exists (e : exn) (before rest : list json) (bad : json)
             (cards : list (json * json)),
        verifiers w = before ++ bad :: rest
        /\ forallb is_entry before = true
        /\ is_entry bad = false
        /\ Forall2 (fun v c => card_fields v = inr c) before cards
        /\ render_verifiers w
           = (inl e,
              mkApp (verifiers w) (data_file w) (disk w)
                    (ui w ++ [Render cards]))).
Proof.
  split; [apply render_entries | apply render_non_entry].
Qed.

Lemma render_verifiers_spec_witness :
  exists e,
    render_verifiers
      (mkApp [entry "mail" "MFRGG"; JObj [("name"%string, JStr "x")]]
             Missing NoFault [])
    = (inl e,
       mkApp [entry "mail" "MFRGG"; JObj [("name"%string, JStr "x")]]
             Missing NoFault [Render [(JStr "mail", JStr "MFRGG")]]).
Proof.
  destruct (proj2 (render_verifiers_spec
                     (mkApp [entry "mail" "MFRGG";
                             JObj [("name"%string, JStr "x")]]
                            Missing NoFault [])) eq_refl)
    as (e & before & rest & bad & cards & Hvs & Hb & Hx & HF & Hrun).
  exists e. rewrite Hrun. cbn [verifiers data_file disk ui List.app].
  cbn [verifiers] in Hvs.
  destruct before as [|b1 before].
  - injection Hvs as <- _. discriminate Hx.
  - injection Hvs as <- Hrest.
    destruct before as [|b2 before].
    + inversion HF as [|? c ? cs Hc HF']. subst. inversion HF'. subst.
      vm_compute in Hc. injection Hc as <-. reflexivity.
    + injection Hrest as <- Hrest. cbn [forallb] in Hb.
      vm_compute in Hb. discriminate Hb.
Defined.

(** X20: [import_data] on a file holding a list of objects that all have
    both fields.  Once confirmed, and when the save of the imported list
    returns True, the list is exactly the imported one -- what was there
    before is gone, nothing is merged -- the file holds it, the cards are
    redrawn and the success box is shown; when the question is declined, or
    the file dialog cancelled, nothing at all happens. *)
Theorem import_data_replaces (items : list json) (w : app) :
  forallb is_entry items = true ->
  (fst (save_verifiers (mkApp items (data_file w) (disk w) (ui w))) = inr true ->
   exists cards,
     Forall2 (fun v c => card_fields v = inr c) items cards
     /\ import_data (Some (Document (JArr items))) true w
        = (inr tt,
           mkApp items (Document (JArr items)) (disk w)
                 (ui w ++ [Render cards; UpdateStats (length items);
                           ShowInfo Imported])))
  /\ import_data (Some (Document (JArr items))) false w = (inr tt, w)
  /\ (forall confirm, import_data None confirm w = (inr tt, w)).
Proof.
  intros Hall.
  destruct (import_data_entries items w Hall) as [_ Hno].
  split; [|split; [exact Hno | reflexivity]].
  intros Hsave.
  assert (Hd : disk w = NoFault) by (apply (saved_disk _ Hsave)).
  rewrite Hd. exact (import_data_confirmed items w Hall Hd).
Qed.

Lemma import_data_replaces_witness :
  verifiers
    (snd (import_data (Some (Document (JArr [entry "shop" "ME"]))) true
            (mkApp [entry "mail" "MFRGG"] Missing NoFault [])))
  = [entry "shop" "ME"].
Proof.
  destruct (proj1 (import_data_replaces [entry "shop" "ME"]
                     (mkApp [entry "mail" "MFRGG"] Missing NoFault [])
                     eq_refl) eq_refl) as (cards & _ & E).
  rewrite E. reflexivity.
Defined.

(** X21: [clear_all] on an empty list only says so; declined, it does
    nothing; confirmed on a list that is not empty, with a working disk, it
    empties list and file, redraws and shows the success box. *)
Theorem clear_all_spec (w : app) :
  (verifiers w = [] ->
   forall confirm,
     clear_all confirm w
     = (inr tt,
        mkApp [] (data_file w) (disk w) (ui w ++ [ShowInfo NothingToClear])))
  /\ (verifiers w <> [] -> clear_all false w = (inr tt, w))
  /\ (verifiers w <> [] -> disk w = NoFault ->
      clear_all true w
      = (inr tt,
         mkApp [] (Document (JArr [])) NoFault
               (ui w ++ [Render []; UpdateStats 0; ShowInfo Cleared]))).
Proof.
  repeat split.
  - intros Hv confirm. unfold clear_all, andthen, get_verifiers.
    rewrite Hv. unfold emit. now rewrite Hv.
  - intros Hv. unfold clear_all, andthen, get_verifiers.
    destruct (verifiers w); [contradiction | reflexivity].
  - intros Hv Hd.
    assert (E : clear_all true w
                = commit [] (_ <~ update_stats ;; emit (ShowInfo Cleared)) w).
    { unfold clear_all. unfold andthen at 1. unfold get_verifiers at 1.
      destruct (verifiers w); [contradiction | reflexivity]. }
    rewrite E.
    destruct (commit_entries [] (ShowInfo Cleared) w eq_refl Hd)
      as (cards & HF & Hrun).
    inversion HF; subst. exact Hrun.
Qed.

Lemma clear_all_spec_witness :
  clear_all true (mkApp [entry "mail" "MFRGG"] Missing NoFault [])
  = (inr tt,
     mkApp [] (Document (JArr [])) NoFault
           ([] ++ [Render []; UpdateStats 0; ShowInfo Cleared])).
Proof.
  apply (proj2 (proj2 (clear_all_spec
                         (mkApp [entry "mail" "MFRGG"] Missing NoFault []))));
    [discriminate | reflexivity].
Defined.

(** X22: a backup comes back: when [export_data] ends with its success
    box, the chosen file holds the list; and importing that file with
    confirmation -- into this or any other state of the application, the
    save going through -- gives exactly the exported list, in order,
    provided every record has both fields. *)
Theorem export_then_import (w w2 : app) (target : file) (d : fault) :
  fst (Backup.export_data (Some (target, d)) w) = Some Backup.Exported ->
  forallb is_entry (verifiers w) = true ->
  fst (save_verifiers (mkApp (verifiers w) (data_file w2) (disk w2) (ui w2)))
  = inr true ->
  exists backup : file,
    snd (Backup.export_data (Some (target, d)) w) = Some backup
    /\ verifiers (snd (import_data (Some backup) true w2)) = verifiers w
    /\ data_file (snd (import_data (Some backup) true w2))
       = Document (JArr (verifiers w)).
Proof.
  intros Hexp Hall Hsave. exists (Document (JArr (verifiers w))). split.
  - unfold Backup.export_data in *.
    destruct (verifiers w); [discriminate Hexp|].
    destruct d; [reflexivity | discriminate Hexp | discriminate Hexp].
  - destruct (import_data_confirmed (verifiers w) w2 Hall
                (saved_disk _ Hsave)) as (cards & _ & E).
    rewrite E. split; reflexivity.
Qed.

Lemma export_then_import_witness :
  exists backup : file,
    snd (Backup.export_data (Some (Unparseable, NoFault))
           (mkApp [entry "mail" "MFRGG"] Missing NoFault []))
    = Some backup
    /\ verifiers (snd (import_data (Some backup) true
                         (mkApp [] Missing NoFault [])))
       = [entry "mail" "MFRGG"]
    /\ data_file (snd (import_data (Some backup) true
                         (mkApp [] Missing NoFault [])))
       = Document (JArr [entry "mail" "MFRGG"]).
Proof.
  apply (export_then_import
           (mkApp [entry "mail" "MFRGG"] Missing NoFault [])
           (mkApp [] Missing NoFault []) Unparseable NoFault);
    reflexivity.
Defined.

End StoreProperties.

(** ** [base32_decode] loses nothing *)

Section Base32Injective.

Import TOTPGenerator.










End Base32Injective.



(** ** SymbolCodec on any text: [Unicode.base32_decode] *)

Section Base32Unicode.

Variable upper : Unicode.text -> Unicode.text.

Lemma contains_above (l : Unicode.text) (c : N) :
  Forall (fun k => (k < c)%N) l -> Unicode.contains l c = false.
Proof.
  induction 1 as [|k l Hk _ IH]; [reflexivity|].
  cbn [Unicode.contains existsb]. fold (Unicode.contains l c).
  rewrite IH. replace (c =? k)%N with false; [reflexivity|].
  symmetry. apply N.eqb_neq. lia.
Qed.

(** The alphabet string and the arithmetic on code points agree, on every
    character. *)
Lemma alphabet_agrees_unicode (c : N) :
  match UnicodeSpec.symbol_value c with
  | Some v =>
    ((0 <=? v) && (v <? 32) && Unicode.contains Unicode.base32_chars c)%bool
    = true
    /\ Unicode.index Unicode.base32_chars c = inr (Z.to_nat v)
  | None => Unicode.contains Unicode.base32_chars c = false
  end.
Proof.
  destruct (N.lt_ge_cases c 256) as [Hlt|Hge].
  - rewrite <- (N_ascii_embedding c Hlt).
    generalize (ascii_of_N c). clear.
    intros a. destruct a as [[] [] [] [] [] [] [] []]; vm_compute; auto.
  - assert (Hnone : UnicodeSpec.symbol_value c = None).
    { unfold UnicodeSpec.symbol_value.
      replace (Z.of_N c <=? 90) with false by (symmetry; apply Z.leb_gt; lia).
      replace (Z.of_N c <=? 55) with false by (symmetry; apply Z.leb_gt; lia).
      now rewrite !andb_false_r. }
    rewrite Hnone. apply contains_above.
    unfold Unicode.base32_chars, Unicode.literal. cbn [list_ascii_of_string map].
    repeat (apply Forall_cons;
            [apply N.lt_le_trans with 256%N; [reflexivity | exact Hge]|]).
    apply Forall_nil.
Qed.

Lemma stripped_agrees_unicode (text : Unicode.text) :
  Unicode.remove_char (N_of_ascii "=")
    (Unicode.remove_char (N_of_ascii " ") (upper text))
  = UnicodeSpec.stripped upper text.
Proof.
  unfold UnicodeSpec.stripped, Unicode.remove_char.
  change (N_of_ascii "=") with 61%N. change (N_of_ascii " ") with 32%N.
  induction (upper text) as [|c l IH]; cbn [filter]; [reflexivity|].
  destruct (c =? 32)%N; cbn [negb orb filter]; [exact IH|].
  destruct (c =? 61)%N; cbn [negb]; [exact IH | now rewrite IH].
Qed.

Lemma check_loop_unicode (s : Unicode.text) :
  Unicode.for_each s
    (fun (_ : unit) char =>
       if negb (Unicode.contains Unicode.base32_chars char)
       then inl (Unicode.invalid_character char)
       else inr tt)
    tt
  = match UnicodeSpec.symbols s with
    | inl (UnicodeSpec.InvalidSymbol c) => inl (Unicode.invalid_character c)
    | inr _ => inr tt
    end.
Proof.
  induction s as [|c s IH]; cbn [Unicode.for_each UnicodeSpec.symbols];
    [reflexivity|].
  pose proof (alphabet_agrees_unicode c) as Hc.
  destruct (UnicodeSpec.symbol_value c) as [v|].
  - destruct Hc as [Hc _].
    apply andb_prop in Hc; destruct Hc as [_ Hc]. rewrite Hc.
    cbn [negb Unicode.andthen].
    rewrite IH. destruct (UnicodeSpec.symbols s) as [[c']|vs]; reflexivity.
  - rewrite Hc; reflexivity.
Qed.

Lemma symbols_length_unicode (s : Unicode.text) (vs : list Z) :
  UnicodeSpec.symbols s = inr vs -> length vs = length s.
Proof.
  revert vs; induction s as [|c s IH]; intros vs H; cbn in H.
  - injection H as <-; reflexivity.
  - destruct (UnicodeSpec.symbol_value c); [|discriminate].
    destruct (UnicodeSpec.symbols s) as [|vs']; [discriminate|].
    injection H as <-; cbn [length]; f_equal; apply IH; reflexivity.
Qed.

Lemma symbols_pad_unicode (s : Unicode.text) (vs : list Z) (n : nat) :
  UnicodeSpec.symbols s = inr vs ->
  UnicodeSpec.symbols (s ++ repeat (N_of_ascii "A") n)
  = inr (vs ++ repeat 0 n).
Proof.
  revert vs; induction s as [|c s IH]; intros vs H;
    cbn [List.app UnicodeSpec.symbols] in *.
  - injection H as <-. induction n as [|n IHn]; [reflexivity|].
    cbn [repeat UnicodeSpec.symbols List.app] in *.
    change (UnicodeSpec.symbol_value (N_of_ascii "A")) with (Some 0).
    now rewrite IHn.
  - destruct (UnicodeSpec.symbol_value c); [|discriminate].
    destruct (UnicodeSpec.symbols s) as [|vs']; [discriminate|].
    injection H as <-. now rewrite (IH vs' eq_refl).
Qed.

Lemma bits_loop_unicode (s : Unicode.text) (vs : list Z) (acc : list ascii) :
  UnicodeSpec.symbols s = inr vs ->
  Unicode.for_each s
    (fun bits c =>
       Unicode.andthen (Unicode.index Unicode.base32_chars c)
                       (fun i => inr (bits ++ Py.format_05b i)))
    acc
  = inr (acc ++ map bitchar (flat_map Spec.bits5 vs)).
Proof.
  revert vs acc; induction s as [|c s IH]; intros vs acc H;
    cbn [UnicodeSpec.symbols] in H.
  - injection H as <-; cbn. now rewrite app_nil_r.
  - pose proof (alphabet_agrees_unicode c) as Hc.
    destruct (UnicodeSpec.symbol_value c) as [v|]; [|discriminate].
    destruct (UnicodeSpec.symbols s) as [|vs'] eqn:Hs; [discriminate|].
    injection H as <-. destruct Hc as [Hb Hi].
    apply andb_prop in Hb; destruct Hb as [Hb _].
    apply andb_prop in Hb; destruct Hb as [Hlo Hhi].
    apply Z.leb_le in Hlo; apply Z.ltb_lt in Hhi.
    cbn [Unicode.for_each]. rewrite Hi. cbn [Unicode.andthen].
    rewrite (IH vs' _ eq_refl).
    rewrite format_05b_bits5 by lia.
    rewrite Z2Nat.id by lia.
    cbn [flat_map]. now rewrite map_app, app_assoc.
Qed.

(** The last loop is the one of the ASCII model. *)
Lemma bytes_loop_unicode (bits : list ascii) (l : list nat) :
  forall acc : list Z,
    Unicode.for_each l
      (fun bytes i =>
         let byte := Py.slice bits i (i + 8) in
         if (length byte =? 8)%nat
         then Unicode.andthen (Unicode.plain (Py.int_base2 byte))
                              (fun b => inr (bytes ++ [b]))
         else inr bytes)
      acc
    = Unicode.plain (for_in l (append_byte bits) acc).
Proof.
  induction l as [|i l IH]; intros acc; [reflexivity|].
  cbn [Unicode.for_each for_in]. unfold append_byte at 1. cbv zeta.
  destruct (length (Py.slice bits i (i + 8)) =? 8)%nat.
  - destruct (Py.int_base2 (Py.slice bits i (i + 8))) as [e|b];
      cbn [Unicode.plain Unicode.andthen bind ret]; [reflexivity | apply IH].
  - cbn [Unicode.andthen bind ret]. apply IH.
Qed.

Lemma padded_symbols_unicode (s : Unicode.text) (vs : list Z) :
  UnicodeSpec.symbols s = inr vs ->
  let padding := (8 - length s mod 8)%nat in
  UnicodeSpec.symbols (if negb (padding =? 8)%nat
                       then s ++ repeat (N_of_ascii "A") padding else s)
  = inr (Spec.padded vs).
Proof.
  intros Hs padding. unfold Spec.padded.
  rewrite (symbols_length_unicode s vs Hs).
  pose proof (Nat.mod_upper_bound (length s) 8 ltac:(lia)) as Hm.
  fold padding.
  destruct (padding =? 8)%nat eqn:Hp; cbn [negb].
  - apply Nat.eqb_eq in Hp. rewrite Hp.
    change (8 mod 8)%nat with 0%nat. cbn [repeat]. now rewrite app_nil_r.
  - apply Nat.eqb_neq in Hp.
    rewrite (Nat.mod_small padding 8) by (unfold padding in *; lia).
    now apply symbols_pad_unicode.
Qed.

(** [Unicode.base32_decode] computes what the specification of [decode]
    says, on every text and whatever [str.upper] does. *)
Lemma base32_decode_refines_unicode (text : Unicode.text) :
  Unicode.base32_decode upper text
  = match UnicodeSpec.decode upper text with
    | inl (UnicodeSpec.InvalidSymbol c) => inl (Unicode.invalid_character c)
    | inr bytes => inr bytes
    end.
Proof.
  unfold Unicode.base32_decode, UnicodeSpec.decode.
  rewrite stripped_agrees_unicode, check_loop_unicode.
  destruct (UnicodeSpec.symbols (UnicodeSpec.stripped upper text))
    as [[c]|vs] eqn:Hs; [reflexivity|].
  cbn [Unicode.andthen].
  pose proof (padded_symbols_unicode _ _ Hs) as Hp. cbv zeta in Hp.
  change (N_of_ascii "A") with 65%N in *.
  pose proof (bits_loop_unicode _ _ [] Hp) as Hbits.
  unfold Unicode.text in *. rewrite Hbits.
  cbn [Unicode.andthen List.app].
  set (bools := flat_map Spec.bits5 (Spec.padded vs)).
  rewrite bytes_loop_unicode.
  unfold Py.range. rewrite length_map, Nat.sub_0_r.
  change (8 - 1)%nat with 7%nat.
  pose proof (bytes_loop (length bools) bools [] (map bitchar bools) []
                (le_n _) eq_refl) as Hbytes.
  cbn [length List.app] in Hbytes. rewrite Hbytes. reflexivity.
Qed.

End Base32Unicode.

(** The German sharp s, which [str.upper] turns into two capital S, is a
    secret like any other: with such a table the decoder returns five
    bytes. *)
Lemma base32_decode_sharp_s (to_upper : N -> Unicode.text) :
  to_upper 223%N = [83%N; 83%N] ->
  Unicode.base32_decode (Unicode.upper to_upper) [223%N]
  = inr [148; 128; 0; 0; 0].
Proof.
  intros H. rewrite base32_decode_refines_unicode.
  unfold UnicodeSpec.decode, UnicodeSpec.stripped, Unicode.upper.
  cbn [flat_map]. rewrite H. reflexivity.
Qed.

(** On a text of 8-bit characters that [str.upper] treats as the ASCII
    table does, the decoder on code points and [TOTPGenerator.base32_decode]
    are one function. *)
Lemma symbol_value_of_ascii (c : ascii) :
  UnicodeSpec.symbol_value (N_of_ascii c) = Spec.symbol_value c.
Proof. destruct c as [[] [] [] [] [] [] [] []]; reflexivity. Qed.

Lemma blank_of_ascii (c : ascii) :
  (N.eqb (N_of_ascii c) 32 || N.eqb (N_of_ascii c) 61)%bool
  = (Ascii.eqb c " " || Ascii.eqb c "=")%bool.
Proof. destruct c as [[] [] [] [] [] [] [] []]; reflexivity. Qed.

Lemma symbols_of_ascii (s : list ascii) :
  UnicodeSpec.symbols (map N_of_ascii s)
  = match Spec.symbols s with
    | inl (Spec.InvalidSymbol c) =>
      inl (UnicodeSpec.InvalidSymbol (N_of_ascii c))
    | inr vs => inr vs
    end.
Proof.
  induction s as [|c s IH]; [reflexivity|].
  cbn [map UnicodeSpec.symbols Spec.symbols].
  rewrite symbol_value_of_ascii.
  destruct (Spec.symbol_value c); [|reflexivity].
  rewrite IH. destruct (Spec.symbols s) as [[c']|vs]; reflexivity.
Qed.

Lemma filter_of_ascii (s : list ascii) :
  filter (fun c => negb (N.eqb c 32 || N.eqb c 61)) (map N_of_ascii s)
  = map N_of_ascii
        (filter (fun c => negb (Ascii.eqb c " " || Ascii.eqb c "=")) s).
Proof.
  induction s as [|c s IH]; [reflexivity|].
  cbn [map filter]. rewrite blank_of_ascii, IH.
  destruct (negb _); reflexivity.
Qed.

Lemma base32_decode_of_string
  (upper : Unicode.text -> Unicode.text) (text : string) :
  upper (Unicode.literal text)
  = map N_of_ascii (Py.upper (list_ascii_of_string text)) ->
  Unicode.base32_decode upper (Unicode.literal text)
  = match TOTPGenerator.base32_decode text with
    | inl (ValueError msg) =>
      inl (Unicode.ValueErrorText (Unicode.literal msg))
    | inl e => inl (Unicode.Plain e)
    | inr key => inr key
    end.
Proof.
  intros Hupper.
  rewrite base32_decode_refines_unicode, base32_decode_refines.
  unfold UnicodeSpec.decode, Spec.decode, UnicodeSpec.stripped.
  rewrite Hupper, filter_of_ascii.
  change (filter _ (Py.upper (list_ascii_of_string text)))
    with (Spec.stripped text).
  rewrite symbols_of_ascii.
  destruct (Spec.symbols (Spec.stripped text)) as [[c]|vs]; reflexivity.
Qed.

(** C2: on every text, [base32_decode] uppercases the text (by whatever
    [str.upper] does), drops spaces and '=', raises at the first remaining
    character outside A..Z, 2..7 (the failure the specification calls
    InvalidSymbol), and otherwise pads the symbols with the zero symbol to a
    multiple of eight, writes their 5-bit values most significant bit first,
    cuts the bits into groups of eight, drops a shorter last group and
    returns the bytes; the empty text gives the empty byte string. *)
Theorem base32_decode_spec :
  (forall (upper : Unicode.text -> Unicode.text) (text : Unicode.text),
      Unicode.base32_decode upper text
      = match UnicodeSpec.decode upper text with
        | inl (UnicodeSpec.InvalidSymbol c) =>
          inl (Unicode.invalid_character c)
        | inr bytes => inr bytes
        end)
  /\ (forall to_upper : N -> Unicode.text,
         Unicode.base32_decode (Unicode.upper to_upper) [] = inr []).
Proof.
  split; [apply base32_decode_refines_unicode|].
  intros to_upper. rewrite base32_decode_refines_unicode. reflexivity.
Qed.

(** [TOTPGenerator.base32_decode] is the decoder on code points with the
    ASCII table for [str.upper]. *)
Lemma base32_decode_ascii_table (text : string) :
  Unicode.base32_decode Unicode.ascii_upper (Unicode.literal text)
  = match TOTPGenerator.base32_decode text with
    | inl (ValueError msg) =>
      inl (Unicode.ValueErrorText (Unicode.literal msg))
    | inl e => inl (Unicode.Plain e)
    | inr key => inr key
    end.
Proof.
  apply base32_decode_of_string.
  unfold Unicode.ascii_upper, Unicode.literal, Py.upper.
  rewrite !map_map. apply map_ext.
  intros c. destruct c as [[] [] [] [] [] [] [] []]; reflexivity.
Qed.
